(** * lockit-utilities: route guard, database resolver, QR link, token check

    A shallow embedding of [index.js] and of the three libraries it calls
    ([thirty-two] for base32, [notp] for the one-time-password window search,
    Node's [url] for the connection string), followed by the properties the
    specification states about them. *)

From Stdlib Require Import ZArith Strings.String Strings.Ascii Strings.Byte List Lia Bool.
From stdpp Require Import base option list strings gmap pretty.

#[local] Set Warnings "-register-all".
#[local] Open Scope Z_scope.

(** ** JavaScript values

    The utilities are dynamically typed: a configuration may be missing, an
    option may hold anything truthy, the window search hands back [null] or
    an object. [value] is the fragment of the JavaScript universe these five
    functions can observe. A [VNum] stands for an integer-valued Number (the
    only numbers this code meets are [401] and a counter difference); objects
    are finite maps from property names to values. *)

Inductive value : Type :=
| VUndefined
| VNull
| VBool (b : bool)
| VNum (n : Z)
| VStr (s : string)
| VObj (fields : gmap string value).

(** Abrupt completion: the only exceptions in reach are the [TypeError] of
    a property read on [undefined]/[null] (or of a library refusing its
    argument) and whatever a library raises itself. *)
Inductive exn : Type :=
| TypeError
| Raised (what : value).

Inductive completion (A : Type) : Type :=
| Normal (a : A)
| Throw (e : exn).
Arguments Normal {A} a.
Arguments Throw {A} e.

#[global] Instance completion_ret : MRet completion := @Normal.
#[global] Instance completion_bind : MBind completion :=
  fun A B (f : A -> completion B) (m : completion A) =>
    match m with
    | Normal a => f a
    | Throw e => Throw e
    end.

(** ToBoolean. *)
Definition truthy (v : value) : bool :=
  match v with
  | VUndefined | VNull => false
  | VBool b => b
  | VNum n => negb (n =? 0)
  | VStr s => negb (String.eqb s "")
  | VObj _ => true
  end.

(** [a || b] with an operand that is already evaluated. *)
Definition js_or (a b : value) : value := if truthy a then a else b.

(** [a && b], the right operand evaluated only when the left one is truthy. *)
Definition js_and (a : value) (b : completion value) : completion value :=
  if truthy a then b else Normal a.

(** [v === n] for a number literal [n]. *)
Definition strict_eq_num (v : value) (n : Z) : bool :=
  match v with
  | VNum m => m =? n
  | _ => false
  end.

(** [v === s] for a string literal [s] (the [case] labels of a [switch]). *)
Definition strict_eq_str (v : value) (s : string) : bool :=
  match v with
  | VStr t => String.eqb t s
  | _ => false
  end.

(** [v.k]: a [TypeError] on [undefined] and [null]; on the other primitives
    the names read in this file ([loginRoute], [rest], [loggedIn], [url],
    [delta]) are not prototype properties, so the read gives [undefined]. *)
Definition get_prop (v : value) (k : string) : completion value :=
  match v with
  | VUndefined | VNull => Throw TypeError
  | VObj fields => Normal (default VUndefined (fields !! k))
  | _ => Normal VUndefined
  end.

(** A property read where nothing can be thrown, [undefined] standing for
    a value that has no properties at all. *)
Definition own_prop (v : value) (k : string) : value :=
  match get_prop v k with
  | Normal x => x
  | Throw _ => VUndefined
  end.

(** ToString, as applied by [+] next to a string operand. *)
Definition to_string (v : value) : string :=
  match v with
  | VUndefined => "undefined"
  | VNull => "null"
  | VBool true => "true"
  | VBool false => "false"
  | VNum n => pretty n
  | VStr s => s
  | VObj _ => "[object Object]"
  end.

(** ** exports.restrict *)

(** What the guard can see of an Express request. *)
Record request : Type := mkRequest {
  session : value;
  sessionStore : value;
  url : string
}.

(** The one call each path of the guard makes on its way out. *)
Inductive action : Type :=
| Proceed                       (* return next() *)
| SendStatus (code : Z)         (* return res.send(code) *)
| RedirectTo (location : string). (* res.redirect(location) *)

Definition guard : Type := request -> completion action.

Definition restrict (config : value) : completion guard :=
  let config := js_or config (VObj ∅) in
  loginRoute ← get_prop config "loginRoute";
  let route := js_or loginRoute (VStr "/login") in
  mret (fun req : request =>
    loggedIn ← get_prop (session req) "loggedIn";
    if truthy loggedIn then mret Proceed else
    rest ← get_prop config "rest";
    if truthy rest then mret (SendStatus 401) else
    mret (RedirectTo (to_string route +:+ "?redirect=" +:+ url req))).

(** ** exports.getDatabase *)

Section GetDatabase.

(** [url.parse(uri).protocol]: Node's parser, given whatever the
    configuration held, answers with the lower-cased scheme and its colon,
    with [null] when there is none, or throws. *)
Variable url_parse_protocol : value -> completion value.

Definition db_result (type adapter : string) : value :=
  VObj (<["type" := VStr type]> (<["adapter" := VStr adapter]> ∅)).

Definition getDatabase (config : value) : completion value :=
  db ← get_prop config "db";
  db_url ← get_prop db "url";
  let uri := js_or db_url db in
  prot ← url_parse_protocol uri;
  mret (
    if strict_eq_str prot "http:" || strict_eq_str prot "https:"
    then db_result "couchdb" "lockit-couchdb-adapter"
    else if strict_eq_str prot "mongodb:"
    then db_result "mongodb" "lockit-mongodb-adapter"
    else if strict_eq_str prot "postgres:"
    then db_result "postgresql" "lockit-sql-adapter"
    else if strict_eq_str prot "mysql:"
    then db_result "mysql" "lockit-sql-adapter"
    else if strict_eq_str prot "sqlite:"
    then db_result "sqlite" "lockit-sql-adapter"
    else VObj ∅).

End GetDatabase.

(** ** exports.qr *)

(** [encodeURIComponent]: every character except the unreserved ones
    ([A-Z a-z 0-9 - _ . ! ~ * ' ( )]) is replaced by the [%XX] escapes of its
    UTF-8 bytes. A [string] here is the UTF-8 form of the JavaScript string,
    so the escape works byte by byte (and the [URIError] for a lone surrogate
    has no counterpart: such a string has no UTF-8 form). *)
Definition is_upper (c : ascii) : bool :=
  let n := nat_of_ascii c in ((65 <=? n) && (n <=? 90))%nat.
Definition is_lower (c : ascii) : bool :=
  let n := nat_of_ascii c in ((97 <=? n) && (n <=? 122))%nat.
Definition is_digit (c : ascii) : bool :=
  let n := nat_of_ascii c in ((48 <=? n) && (n <=? 57))%nat.

Definition uri_unreserved (c : ascii) : bool :=
  is_upper c || is_lower c || is_digit c ||
  existsb (Ascii.eqb c) (list_ascii_of_string "-_.!~*'()").

Definition hex_digit (n : nat) : ascii :=
  nth n (list_ascii_of_string "0123456789ABCDEF") "0"%char.

Definition percent_escape (c : ascii) : string :=
  let n := nat_of_ascii c in
  String "%" (String (hex_digit (n / 16)) (String (hex_digit (n mod 16)) "")).

Fixpoint encodeURIComponent (s : string) : string :=
  match s with
  | EmptyString => ""
  | String c rest =>
      (if uri_unreserved c then String c "" else percent_escape c)
      +:+ encodeURIComponent rest
  end.

Section Qr.

(** [base32.encode(key)], read back as text by the concatenation that
    follows it. *)
Variable base32_encode : value -> completion string.

Definition qr_api : string :=
  "https://chart.googleapis.com/chart?chs=200x200&cht=qr&chl=".

Definition qr (config : value) : completion string :=
  key ← get_prop config "key";
  email ← get_prop config "email";
  config_issuer ← get_prop config "issuer";
  let issuer := to_string (js_or config_issuer (VStr "Lockit")) in
  let label := issuer +:+ ":" +:+ to_string email in
  encoded ← base32_encode key;
  let uri := encodeURIComponent
    ("otpauth://totp/" +:+ label +:+ "?secret=" +:+ encoded
     +:+ "&issuer=" +:+ issuer) in
  mret (qr_api +:+ uri).

End Qr.

(** ** exports.verify *)

Section Verify.

Context {Token Key : Type}.

(** [totp.verify(token, key, options)] of [notp]. The wrapper hands token
    and key over untouched, so their types are left open. *)
Variable totp_verify : Token -> Key -> value -> completion value.

Definition verify (token : Token) (key : Key) (options : value)
  : completion value :=
  let options := js_or options (VObj ∅) in
  verified ← totp_verify token key options;
  test ← js_and verified
           (delta ← get_prop verified "delta";
            mret (VBool (strict_eq_num delta 0)));
  mret (if truthy test then VBool true else VBool false).

End Verify.

(** ** exports.destroy *)

Section Destroy.

Context {Callback : Type}.

(** What a run of [destroy] leaves behind: the request as it is afterwards,
    the callbacks that were called, in order, and the value handed back. *)
Record outcome : Type := mkOutcome {
  req_after : request;
  invoked : list Callback;
  returned : value
}.

(** [req.session.destroy(cb)], the method the session middleware puts on
    the session object of a store-backed session. *)
Variable session_destroy : request -> Callback -> completion outcome.

Definition destroy (req : request) (done : Callback) : completion outcome :=
  if truthy (sessionStore req) then
    (* the method read throws when there is no session object *)
    _ ← get_prop (session req) "destroy";
    session_destroy req done
  else
    mret {| req_after := {| session := VNull;
                            sessionStore := sessionStore req;
                            url := url req |};
            invoked := [done];
            returned := VUndefined |}.

End Destroy.
Arguments outcome : clear implicits.

(** ** SecretCodec: base32

    [thirty-two] is an npm dependency; its code is not in the repository.
    The codec is therefore taken from the specification (section 4.1, with
    the RFC 4648 alphabet of section 3). *)

Module SecretCodec.

Inductive error : Type := InvalidEncodingError.

Definition alphabet : list ascii :=
  list_ascii_of_string "ABCDEFGHIJKLMNOPQRSTUVWXYZ234567".

Definition pad_char : ascii := "="%char.

(** The bits of a byte, most significant first. *)
Definition byte_bits (b : byte) : list bool :=
  let '(b0, (b1, (b2, (b3, (b4, (b5, (b6, b7))))))) := Byte.to_bits b in
  [b7; b6; b5; b4; b3; b2; b1; b0].

Definition bits_of_bytes (s : list byte) : list bool :=
  flat_map byte_bits s.

(** The number a run of bits spells, most significant first. *)
Definition bits_value (bits : list bool) : nat :=
  fold_left (fun acc (b : bool) => (2 * acc + (if b then 1 else 0))%nat) bits 0%nat.

Definition quintet_char (a b c d e : bool) : ascii :=
  nth (bits_value [a; b; c; d; e]) alphabet pad_char.

(** Modelled from the spec: [encode] "maps every 5-bit group of the input
    (padded with zero bits to a multiple of 5) to one of 32 alphabet
    characters". The library that does it, [thirty-two], is missing. *)
Fixpoint encode_bits (bits : list bool) : list ascii :=
  match bits with
  | [] => []
  | a :: b :: c :: d :: e :: rest => quintet_char a b c d e :: encode_bits rest
  | [a; b; c; d] => [quintet_char a b c d false]
  | [a; b; c] => [quintet_char a b c false false]
  | [a; b] => [quintet_char a b false false false]
  | [a] => [quintet_char a false false false false]
  end.

(** Zero bits that fill [n] bits up to whole groups of five. *)
Definition spare (n : nat) : nat := ((5 - n mod 5) mod 5)%nat.

(** How many [=] bring [n] characters to a multiple of 8. *)
Definition padding (n : nat) : nat := ((8 - n mod 8) mod 8)%nat.

(** Modelled from the spec: [encode(secret: bytes) -> EncodedSecret], which
    after the 5-bit groups "appends [=] characters until the output length
    is a multiple of 8"; total. The library [thirty-two] is missing. *)
Definition encode (secret : list byte) : string :=
  let chars := encode_bits (bits_of_bytes secret) in
  string_of_list_ascii (chars ++ repeat pad_char (padding (length chars))).

Definition upcase (c : ascii) : ascii :=
  if is_lower c then ascii_of_nat (nat_of_ascii c - 32) else c.

Fixpoint index_of (c : ascii) (l : list ascii) : option nat :=
  match l with
  | [] => None
  | x :: rest => if Ascii.eqb c x then Some 0%nat else S <$> index_of c rest
  end.

(** The [n] low bits of [v], most significant first. *)
Fixpoint value_bits (n : nat) (v : nat) : list bool :=
  match n with
  | O => []
  | S m => value_bits m (v / 2) ++ [Nat.odd v]
  end.

(** The five bits behind an alphabet character, either case. *)
Definition char_bits (c : ascii) : option (list bool) :=
  value_bits 5 <$> index_of (upcase c) alphabet.

(** Modelled from the spec: the alphabet check of [decode] (the library
    [thirty-two] is missing). The text up to its padding, as bits; nothing
    but [=] may come after the first [=]. *)
Fixpoint decode_chars (cs : list ascii) : option (list bool) :=
  match cs with
  | [] => Some []
  | c :: rest =>
      if Ascii.eqb c pad_char
      then (if forallb (Ascii.eqb pad_char) rest then Some [] else None)
      else bits ← char_bits c; more ← decode_chars rest; Some (bits ++ more)
  end.

Definition bits_byte (a b c d e f g h : bool) : byte :=
  Byte.of_bits (h, (g, (f, (e, (d, (c, (b, a))))))).

(** Whole bytes out of a run of bits; an incomplete tail is dropped. *)
Fixpoint octets (bits : list bool) : list byte :=
  match bits with
  | a :: b :: c :: d :: e :: f :: g :: h :: rest =>
      bits_byte a b c d e f g h :: octets rest
  | _ => []
  end.

(** Modelled from the spec: [decode(text: EncodedSecret) -> bytes], which
    "fails with [InvalidEncodingError] if [text] contains characters
    outside the alphabet (case-insensitive accepted) or has inconsistent
    padding". Padding is consistent when the text is whole blocks of 8,
    [=] only closes it, and the characters before it leave fewer than five
    spare bits. The library [thirty-two] is missing. *)
Definition decode (text : string) : sum error (list byte) :=
  let cs := list_ascii_of_string text in
  if negb (length cs mod 8 =? 0)%nat then inl InvalidEncodingError else
  match decode_chars cs with
  | None => inl InvalidEncodingError
  | Some bits =>
      if (length bits mod 8 <? 5)%nat then inr (octets bits)
      else inl InvalidEncodingError
  end.

End SecretCodec.

(** ** HMAC-SHA1

    The digest the one-time password is cut from. [notp] gets it from Node's
    [crypto]; the specification (section 4.2, step 1) names it, and FIPS
    180-4 and RFC 2104 fix it bit for bit. Words are 32-bit integers held in
    [Z], every addition and rotation reduced modulo [2^32]. *)

Module Sha1.

Definition wrap32 (x : Z) : Z := x mod 2 ^ 32.

Definition rotl (n : Z) (x : Z) : Z :=
  wrap32 (Z.lor (Z.shiftl x n) (Z.shiftr x (32 - n))).

Definition byte_Z (b : byte) : Z := Z.of_N (Byte.to_N b).

Definition Z_byte (x : Z) : byte :=
  default "000"%byte (Byte.of_N (Z.to_N (x mod 256))).

(** [n] big-endian bytes of [x]. *)
Fixpoint be_bytes (n : nat) (x : Z) : list byte :=
  match n with
  | O => []
  | S m => be_bytes m (Z.shiftr x 8) ++ [Z_byte x]
  end.

Definition be_word (bs : list byte) : Z :=
  fold_left (fun acc b => Z.lor (Z.shiftl acc 8) (byte_Z b)) bs 0.

(** The message, a [1] bit, zeros up to 56 modulo 64, the bit length. *)
Definition pad (msg : list byte) : list byte :=
  let len := Z.of_nat (length msg) in
  let zeros := Z.to_nat ((55 - len) mod 64) in
  msg ++ "128"%byte :: repeat "000"%byte zeros ++ be_bytes 8 (8 * len).

(** Big-endian words, four bytes each. *)
Fixpoint words (bs : list byte) : list Z :=
  match bs with
  | a :: b :: c :: d :: rest => be_word [a; b; c; d] :: words rest
  | _ => []
  end.

(** Blocks of sixteen words. *)
Fixpoint blocks (fuel : nat) (ws : list Z) : list (list Z) :=
  match fuel, ws with
  | S fuel', _ :: _ => firstn 16 ws :: blocks fuel' (skipn 16 ws)
  | _, _ => []
  end.

(** The message schedule, latest word first: [W t] is made of
    [W (t-3)], [W (t-8)], [W (t-14)] and [W (t-16)]. *)
Fixpoint schedule (n : nat) (rev_w : list Z) : list Z :=
  match n with
  | O => rev_w
  | S m =>
      let w i := nth i rev_w 0 in
      schedule m
        (rotl 1 (Z.lxor (Z.lxor (w 2%nat) (w 7%nat))
                        (Z.lxor (w 13%nat) (w 15%nat))) :: rev_w)
  end.

Definition f (t : nat) (b c d : Z) : Z :=
  if (t <? 20)%nat then Z.lor (Z.land b c) (Z.land (wrap32 (Z.lnot b)) d)
  else if (t <? 40)%nat then Z.lxor (Z.lxor b c) d
  else if (t <? 60)%nat
  then Z.lor (Z.lor (Z.land b c) (Z.land b d)) (Z.land c d)
  else Z.lxor (Z.lxor b c) d.

Definition K (t : nat) : Z :=
  if (t <? 20)%nat then 0x5A827999
  else if (t <? 40)%nat then 0x6ED9EBA1
  else if (t <? 60)%nat then 0x8F1BBCDC
  else 0xCA62C1D6.

Definition state : Type := (Z * Z * Z * Z * Z)%type.

Definition round (st : state * nat) (w : Z) : state * nat :=
  let '((a, b, c, d, e), t) := st in
  let temp := wrap32 (rotl 5 a + f t b c d + e + K t + w) in
  ((temp, a, rotl 30 b, c, d), S t).

Definition compress (h : state) (block : list Z) : state :=
  let w := rev (schedule 64 (rev block)) in
  let '(h0, h1, h2, h3, h4) := h in
  let '((a, b, c, d, e), _) := fold_left round w (h, O) in
  (wrap32 (h0 + a), wrap32 (h1 + b), wrap32 (h2 + c),
   wrap32 (h3 + d), wrap32 (h4 + e)).

Definition initial : state :=
  (0x67452301, 0xEFCDAB89, 0x98BADCFE, 0x10325476, 0xC3D2E1F0).

(** Modelled from the spec: the SHA-1 of "HMAC-SHA1" in step 1 of
    [generate]; Node's [crypto], which computes it for [notp], is missing. *)
Definition sha1 (msg : list byte) : list byte :=
  let ws := words (pad msg) in
  let '(h0, h1, h2, h3, h4) :=
    fold_left compress (blocks (length ws) ws) initial in
  be_bytes 4 h0 ++ be_bytes 4 h1 ++ be_bytes 4 h2
    ++ be_bytes 4 h3 ++ be_bytes 4 h4.

Definition xor_byte (k : Z) (b : byte) : byte := Z_byte (Z.lxor (byte_Z b) k).

(** Modelled from the spec: "H = HMAC-SHA1(key = secret, message = ...),
    a 20-byte digest"; Node's [crypto] is missing. RFC 2104 with a 64-byte
    block: a longer key is hashed first, a shorter one filled with zeros. *)
Definition hmac (key msg : list byte) : list byte :=
  let key := if (64 <? length key)%nat then sha1 key else key in
  let key := key ++ repeat "000"%byte (64 - length key) in
  sha1 (map (xor_byte 0x5c) key ++ sha1 (map (xor_byte 0x36) key ++ msg)).

End Sha1.

(** ** OtpEngine: HOTP/TOTP generation and the window search

    [notp] is an npm dependency; its code is not in the repository. The
    engine is therefore taken from the specification (section 4.2). *)

Module OtpEngine.

Inductive error : Type := InvalidSecretError.

(** The counter is a 64-bit unsigned integer, sent as 8 big-endian bytes. *)
Definition counter_bytes (counter : Z) : list byte :=
  Sha1.be_bytes 8 (counter mod 2 ^ 64).

(** Modelled from the spec: dynamic truncation (step 2 of [generate]; the
    library [notp] is missing). The low nibble of the last digest byte
    picks four bytes, the top bit of the first is cleared, and the four
    are read as a big-endian integer. *)
Definition truncate (H : list byte) : Z :=
  let offset := Z.to_nat (Z.land (Sha1.byte_Z (nth 19 H "000"%byte)) 0x0F) in
  let at_ i := Sha1.byte_Z (nth (offset + i) H "000"%byte) in
  Z.lor (Z.shiftl (Z.land (at_ 0%nat) 0x7F) 24)
    (Z.lor (Z.shiftl (at_ 1%nat) 16)
       (Z.lor (Z.shiftl (at_ 2%nat) 8) (at_ 3%nat))).

Definition digit_char (d : Z) : ascii := ascii_of_nat (48 + Z.to_nat d).

(** [n] in decimal, exactly [width] characters, zeros in front. *)
Fixpoint decimal (width : nat) (n : Z) : string :=
  match width with
  | O => ""
  | S w => decimal w (n / 10) +:+ String (digit_char (n mod 10)) ""
  end.

(** Modelled from the spec: [generate(secret, counter, digits = 6) -> Code],
    steps 1 to 3 of section 4.2, with the [InvalidSecretError] of section
    7 for an empty secret. The library that does it, [notp], is missing. *)
Definition generate (secret : list byte) (counter : Z) (digits : nat)
  : sum error string :=
  match secret with
  | [] => inl InvalidSecretError
  | _ =>
      let P := truncate (Sha1.hmac secret (counter_bytes counter)) in
      inr (decimal digits (P mod 10 ^ Z.of_nat digits))
  end.

Record VerificationWindow : Type := mkWindow {
  windowSize : nat;
  timeStep : positive
}.

Definition default_window : VerificationWindow :=
  {| windowSize := 6; timeStep := 30 |}.

Inductive VerifyResult : Type :=
| Matched (delta : Z)
| NoMatch.

(** The offsets at distance 1 to [w], each distance past first. *)
Fixpoint offsets (w : nat) : list Z :=
  match w with
  | O => []
  | S m => offsets m ++ [- Z.of_nat (S m); Z.of_nat (S m)]
  end.

(** Modelled from the spec: the search order of [verify] (the library
    [notp] is missing), "try [delta = 0] first, then increasing absolute
    distance, ties broken toward the earlier/past offset". *)
Definition search_order (w : nat) : list Z := 0 :: offsets w.

(** The comparison of a generated code with the submitted one; a
    generation that failed has produced no code to agree with. Constant
    time is a property of the running code, not of the answer. *)
Definition code_matches (generated : sum error string) (submitted : string)
  : bool :=
  match generated with
  | inr code => String.eqb code submitted
  | inl _ => false
  end.

(** Modelled from the spec: [verify(submittedCode, secret, window, now) ->
    VerifyResult], the search of section 4.2 over
    [currentCounter = floor(now / timeStep)]. The library that does it,
    [notp], is missing. *)
Definition verify (submittedCode : string) (secret : list byte)
    (window : VerificationWindow) (now : Z) : VerifyResult :=
  let currentCounter := now / Z.pos (timeStep window) in
  match
    find (fun delta =>
            code_matches (generate secret (currentCounter + delta) 6)
                         submittedCode)
         (search_order (windowSize window))
  with
  | Some delta => Matched delta
  | None => NoMatch
  end.

(** Modelled from the spec: the [VerificationWindow] behind the options
    object of [totp.verify] (the library [notp] is missing), with the names
    and defaults [index.js] documents: [window] (default 6) and [time]
    (default 30). A field that is absent or is not a count takes its
    default. *)
Definition window_of_options (options : value) : VerificationWindow :=
  {| windowSize :=
       match own_prop options "window" with
       | VNum n => if 0 <=? n then Z.to_nat n else windowSize default_window
       | _ => windowSize default_window
       end;
     timeStep :=
       match own_prop options "time" with
       | VNum (Z.pos p) => p
       | _ => timeStep default_window
       end |}.

(** Modelled from the spec: a [VerifyResult] as the object the wrapper
    receives, "[{ matched: bool, delta: i32 }] ... or [{matched: false}]"
    (the library [notp] is missing). *)
Definition result_value (r : VerifyResult) : value :=
  match r with
  | Matched delta =>
      VObj (<["matched" := VBool true]> (<["delta" := VNum delta]> ∅))
  | NoMatch => VObj (<["matched" := VBool false]> ∅)
  end.

(** Modelled from the spec: the engine as the wrapper calls it,
    [totp.verify(token, key, options)], reading the clock ([now], in
    seconds) on its own and answering with a [VerifyResult]. The library
    [notp] is missing. *)
Definition totp_verify (now : Z) (token : string) (key : list byte)
    (options : value) : completion value :=
  mret (result_value (verify token key (window_of_options options) now)).

End OtpEngine.

(** ** Node's [url.parse], as far as the protocol goes

    The resolver is stated for any parser; this one is the parser of the
    examples. Node reads the scheme off the front of the string with
    [/^[a-z0-9.+-]+:/i] and lower-cases it, gives [null] when the string
    does not start that way, and refuses what is not a string. (Node trims
    white space first; the addresses of the examples have none.) *)

Definition is_scheme_char (c : ascii) : bool :=
  is_upper c || is_lower c || is_digit c ||
  existsb (Ascii.eqb c) (list_ascii_of_string ".+-").

Definition downcase (c : ascii) : ascii :=
  if is_upper c then ascii_of_nat (nat_of_ascii c + 32) else c.

(** The scheme characters in front of the first colon, colon included. *)
Fixpoint scan_scheme (s : string) : option string :=
  match s with
  | EmptyString => None
  | String c rest =>
      if Ascii.eqb c ":" then Some ":"
      else if is_scheme_char c then String (downcase c) <$> scan_scheme rest
      else None
  end.

Definition node_url_protocol (uri : value) : completion value :=
  match uri with
  | VStr s =>
      match scan_scheme s with
      | Some (String _ (String _ _) as prot) => Normal (VStr prot)
      | _ => Normal VNull
      end
  | _ => Throw TypeError
  end.

(** ** What the specification calls things *)

(** The session of a request is authenticated. *)
Definition authenticated (req : request) : bool :=
  truthy (own_prop (session req) "loggedIn").

(** The request carries a session object at all. *)
Definition has_session (req : request) : Prop :=
  session req <> VUndefined /\ session req <> VNull.

(** The machine-client ([rest]) flag of a configuration. *)
Definition machine_client (config : value) : bool :=
  truthy (own_prop config "rest").

(** The configured login route: [loginRoute] when the configuration has a
    usable one, ['/login'] otherwise. *)
Definition login_route (config : value) : string :=
  to_string (js_or (own_prop config "loginRoute") (VStr "/login")).

(** The window search found a match at drift offset [d]: its answer is an
    object whose [delta] is the number [d]. *)
Definition found_at (verified : value) (d : Z) : Prop :=
  exists fields, verified = VObj fields /\ fields !! "delta" = Some (VNum d).

Definition starts_with (prefix s : string) : Prop :=
  exists rest, s = prefix +:+ rest.

Definition contains (part s : string) : Prop :=
  exists before after, s = before +:+ part +:+ after.

(** A connection descriptor: a URI string, or an object whose [url] is one. *)
Inductive descriptor_uri : value -> string -> Prop :=
| uri_string (uri : string) : descriptor_uri (VStr uri) uri
| uri_object (fields : gmap string value) (uri : string) :
    fields !! "url" = Some (VStr uri) -> uri <> "" ->
    descriptor_uri (VObj fields) uri.

(** A well-formed one-time code: six decimal digits. *)
Definition is_code (token : string) : bool :=
  (length (list_ascii_of_string token) =? 6)%nat
  && forallb is_digit (list_ascii_of_string token).

Definition rfc_secret : list byte := list_byte_of_string "12345678901234567890".

(** A match of [part] somewhere in [s], decided. *)
Fixpoint has_infix (part s : string) : bool :=
  String.prefix part s ||
  match s with
  | EmptyString => false
  | String _ rest => has_infix part rest
  end.

(** [base32.encode] as [qr] meets it, on top of the codec: the bytes of a
    string key, encoded. A key that is no string is not a secret the codec
    is specified for, and is refused here. *)
Definition thirty_two_encode (key : value) : completion string :=
  match key with
  | VStr s => Normal (SecretCodec.encode (list_byte_of_string s))
  | _ => Throw TypeError
  end.

(** The configuration [qr] reads: a key, an account label, an issuer. *)
Definition provisioning_config (key : value) (email issuer : string) : value :=
  VObj (<["key" := key]>
         (<["email" := VStr email]> (<["issuer" := VStr issuer]> ∅))).

(** The schemes the resolver knows. *)
Definition known_protocols : list string :=
  ["http:"; "https:"; "mongodb:"; "postgres:"; "mysql:"; "sqlite:"].

(** What the session middleware promises of [session.destroy(cb)]: it
    completes, and by then [cb] has been called. *)
Definition calls_back {Callback : Type}
    (session_destroy : request -> Callback -> completion (outcome Callback))
  : Prop :=
  forall req cb, exists res,
    session_destroy req cb = Normal res /\ In cb (invoked res).

(** [Session.prototype.destroy] of express-session, for the examples: the
    session leaves the request, the store is told and calls back, and the
    method returns the session it was called on. *)
Definition express_session_destroy {Callback : Type}
    (req : request) (cb : Callback) : completion (outcome Callback) :=
  Normal {| req_after := {| session := VUndefined;
                            sessionStore := sessionStore req;
                            url := url req |};
            invoked := [cb];
            returned := session req |}.

(** Sample inputs for the worked cases below. *)
Definition signin_config : value :=
  VObj (<["loginRoute" := VStr "/signin"]> ∅).

Definition visitor_request : request :=
  {| session := VObj (<["loggedIn" := VBool false]> ∅);
     sessionStore := VUndefined;
     url := "/private" |}.

Definition fresh_request : request :=
  {| session := VObj ∅; sessionStore := VUndefined; url := "/private?tab=2" |}.

Definition stored_request : request :=
  {| session := VObj (<["loggedIn" := VBool true]> ∅);
     sessionStore := VObj ∅;
     url := "/logout" |}.

Definition couchdb_fields : gmap string value :=
  <["db" := VStr "http://127.0.0.1:5984/"]> ∅.

(** Everything the resolver can answer: the empty object and the five
    pairs of a type and its adapter. *)
Definition db_results : list value :=
  [ VObj ∅;
    db_result "couchdb" "lockit-couchdb-adapter";
    db_result "mongodb" "lockit-mongodb-adapter";
    db_result "postgresql" "lockit-sql-adapter";
    db_result "mysql" "lockit-sql-adapter";
    db_result "sqlite" "lockit-sql-adapter" ].

(** A character that can sit in the value of a query parameter without
    ending it: an unreserved one, or the [%] of an escape. *)
Definition uri_safe (c : ascii) : bool := uri_unreserved c || Ascii.eqb c "%".

(** A value with no properties to read: [undefined] or [null]. *)
Definition nullish (v : value) : Prop := v = VUndefined \/ v = VNull.

(** An engine that refuses a falsy options argument. *)
Definition needing_options {Token Key : Type}
    (totp_verify : Token -> Key -> value -> completion value)
    (token : Token) (key : Key) (options : value) : completion value :=
  if truthy options then totp_verify token key options else Throw TypeError.

(** Sample inputs for the further cases. *)
Definition blank_route_config : value :=
  VObj (<["loginRoute" := VStr ""]> ∅).

Definition postgres_object : gmap string value :=
  <["url" := VStr "postgres://127.0.0.1:5432/"]> (<["name" := VStr "users"]> ∅).

Definition nameless_object : gmap string value :=
  <["name" := VStr "users"]> ∅.

Definition gone_request : request :=
  {| session := VUndefined; sessionStore := VObj ∅; url := "/logout" |}.

(** A request as [destroy] leaves it when there is no store, and a
    configuration for machine clients. *)
Definition cleared_request : request :=
  {| session := VNull; sessionStore := VUndefined; url := "/private" |}.

Definition rest_config : value := VObj (<["rest" := VBool true]> ∅).

(** The issuer [qr] settles on, and the URI it escapes. *)
Definition qr_issuer (config : value) : string :=
  to_string (js_or (own_prop config "issuer") (VStr "Lockit")).

Definition provisioning_uri (issuer email encoded : string) : string :=
  "otpauth://totp/" +:+ (issuer +:+ ":" +:+ email) +:+ "?secret=" +:+ encoded
  +:+ "&issuer=" +:+ issuer.

(** A text of unreserved characters only. *)
Definition unreserved (s : string) : bool :=
  forallb uri_unreserved (list_ascii_of_string s).

(** * Properties *)

(** ** The token check *)

Section VerifyFacts.

Context {Token Key : Type}.
Variable totp_verify : Token -> Key -> value -> completion value.

(** The wrapper in one line: a Boolean, [true] when the answer of the
    search is truthy and its [delta] is the number zero. *)
Lemma verify_normal token key options verified :
  totp_verify token key (js_or options (VObj ∅)) = Normal verified ->
  verify totp_verify token key options
  = Normal (VBool (truthy verified
                   && strict_eq_num (own_prop verified "delta") 0)).
Proof.
  intros Hv. unfold verify. rewrite Hv. unfold js_and, own_prop.
  destruct verified as [| |[]|n|s|fields]; cbn; try reflexivity.
  - destruct (n =? 0) eqn:E; cbn; rewrite ?E; reflexivity.
  - destruct (String.eqb s "") eqn:E; cbn; rewrite ?E; reflexivity.
  - destruct (strict_eq_num (default VUndefined (fields !! "delta")) 0);
      reflexivity.
Qed.

Lemma verify_throw token key options e :
  totp_verify token key (js_or options (VObj ∅)) = Throw e ->
  verify totp_verify token key options = Throw e.
Proof. intros Hv. unfold verify. rewrite Hv. reflexivity. Qed.

Lemma zero_delta_found verified :
  truthy verified && strict_eq_num (own_prop verified "delta") 0 = true
  <-> found_at verified 0.
Proof.
  split.
  - destruct verified as [| |b|n|s|fields]; cbn;
      rewrite ?andb_false_r; try discriminate.
    intros H. exists fields. split; [reflexivity|].
    destruct (fields !! "delta") as [[| | |m| |]|]; cbn in H;
      try discriminate.
    apply Z.eqb_eq in H. by subst m.
  - intros (fields & -> & Hd). cbn. by rewrite Hd.
Qed.

End VerifyFacts.

(** C1. The exported [verify] returns [true] exactly when the window search
    underneath found its match at drift offset zero; a match the search
    found at any other offset gives [false]. *)
Theorem verify_accepts_zero_drift_only {Token Key : Type}
    (totp_verify : Token -> Key -> value -> completion value)
    (token : Token) (key : Key) (options verified : value) :
  totp_verify token key (js_or options (VObj ∅)) = Normal verified ->
  (verify totp_verify token key options = Normal (VBool true)
   <-> found_at verified 0)
  /\ (forall d, d <> 0 -> found_at verified d ->
      verify totp_verify token key options = Normal (VBool false)).
Proof.
  intros Hv. rewrite (verify_normal _ _ _ _ _ Hv). split.
  - rewrite <- zero_delta_found. split.
    + by intros [= ->].
    + by intros ->.
  - intros d Hd (fields & -> & Hf). cbn. rewrite Hf. cbn.
    by apply Z.eqb_neq in Hd as ->.
Qed.

(** C9. Whatever the search hands back ([null], [undefined], an object with
    or without a [delta], anything else) and whether or not options were
    passed, the exported [verify] answers with the Boolean [true] or the
    Boolean [false], never with the object, [undefined] or [null]. *)
Theorem verify_returns_boolean {Token Key : Type}
    (totp_verify : Token -> Key -> value -> completion value)
    (token : Token) (key : Key) (options verified : value) :
  totp_verify token key (js_or options (VObj ∅)) = Normal verified ->
  verify totp_verify token key options = Normal (VBool true)
  \/ verify totp_verify token key options = Normal (VBool false).
Proof.
  intros Hv. rewrite (verify_normal _ _ _ _ _ Hv).
  destruct (truthy verified && _); [by left | by right].
Qed.

(** ** The route guard *)

Lemma get_prop_own v k :
  v <> VUndefined -> v <> VNull -> get_prop v k = Normal (own_prop v k).
Proof. intros ? ?. unfold own_prop. by destruct v. Qed.

Lemma own_prop_default config k :
  own_prop (js_or config (VObj ∅)) k = own_prop config k.
Proof. by destruct config as [| |[]|[]|[]|]. Qed.

Lemma get_prop_config config k :
  get_prop (js_or config (VObj ∅)) k = Normal (own_prop config k).
Proof. by destruct config as [| |[]|[]|[]|]. Qed.

(** [restrict] always hands a guard back, and the guard is this one. *)
Lemma restrict_guard config req :
  has_session req ->
  exists g, restrict config = Normal g /\
    g req = Normal
      (if authenticated req then Proceed
       else if machine_client config then SendStatus 401
       else RedirectTo (login_route config +:+ "?redirect=" +:+ url req)).
Proof.
  intros [Hu Hn]. unfold restrict. rewrite !get_prop_config. cbn.
  eexists. split; [reflexivity|]. cbn beta.
  rewrite (get_prop_own _ _ Hu Hn). cbn.
  unfold authenticated, machine_client, login_route.
  destruct (truthy (own_prop (session req) "loggedIn")); [reflexivity|].
  destruct (truthy (own_prop config "rest")); reflexivity.
Qed.

(** C7, as the code has it. For every request that carries a session
    object ([req.session] neither [undefined] nor [null]), the guard
    [restrict] returns lets an authenticated session through
    to the next handler; for any other session it answers 401 and does not
    redirect when the [rest] flag of the configuration is set, and redirects
    to the configured login route, the requested URL attached as the
    [redirect] query parameter, when it is not. *)
Theorem restrict_gate (config : value) (req : request) :
  has_session req ->
  exists g, restrict config = Normal g /\
    (authenticated req = true -> g req = Normal Proceed) /\
    (authenticated req = false -> machine_client config = true ->
       g req = Normal (SendStatus 401)) /\
    (authenticated req = false -> machine_client config = false ->
       g req = Normal
         (RedirectTo (login_route config +:+ "?redirect=" +:+ url req))) /\
    (forall route, own_prop config "loginRoute" = VStr route -> route <> "" ->
       login_route config = route).
Proof.
  intros Hs. destruct (restrict_guard config req Hs) as (g & Hg & Hreq).
  exists g. split; [exact Hg|]. rewrite Hreq. repeat split.
  - by intros ->.
  - by intros -> ->.
  - by intros -> ->.
  - intros route Hr Hne. unfold login_route, js_or. rewrite Hr. cbn.
    apply String.eqb_neq in Hne. by rewrite Hne.
Qed.

(** C10, as the code has it. With no configuration at all, or with one
    that has no [loginRoute], a request that carries a session object and is
    neither authenticated nor from a machine client is redirected to
    ['/login?redirect='] followed by the URL it asked for. *)
Theorem restrict_default_route (config : value) (req : request) :
  config = VUndefined
  \/ (exists fields, config = VObj fields /\ fields !! "loginRoute" = None) ->
  has_session req ->
  authenticated req = false ->
  machine_client config = false ->
  exists g, restrict config = Normal g /\
    g req = Normal (RedirectTo ("/login?redirect=" +:+ url req)).
Proof.
  intros Hc Hs Ha Hm. destruct (restrict_guard config req Hs) as (g & Hg & Hreq).
  exists g. split; [exact Hg|]. rewrite Hreq, Ha, Hm.
  assert (login_route config = "/login") as ->; [|reflexivity].
  destruct Hc as [->|(fields & -> & Hf)]; [reflexivity|].
  unfold login_route, own_prop. cbn. by rewrite Hf.
Qed.

(** Called with no configuration, the guard never takes the 401 path. *)
Lemma restrict_no_config_not_machine : machine_client VUndefined = false.
Proof. reflexivity. Qed.

(** Without a session object the guard throws before it decides anything. *)
Lemma restrict_no_session config store u :
  exists g, restrict config = Normal g /\
    g {| session := VUndefined; sessionStore := store; url := u |}
    = Throw TypeError.
Proof.
  unfold restrict. rewrite !get_prop_config. cbn. eexists. split; reflexivity.
Qed.

(** ** The database resolver *)

Section GetDatabaseFacts.

Variable url_parse_protocol : value -> completion value.

(** The URI the resolver hands to the parser. *)
Lemma getDatabase_uri fields db uri :
  fields !! "db" = Some db ->
  descriptor_uri db uri ->
  getDatabase url_parse_protocol (VObj fields)
  = (prot ← url_parse_protocol (VStr uri);
     getDatabase (fun _ => Normal prot) (VObj fields)).
Proof.
  intros Hdb Hd. unfold getDatabase. cbn. rewrite Hdb. cbn.
  destruct Hd as [uri|dbf uri Hu Hne]; cbn.
  - reflexivity.
  - rewrite Hu. cbn. unfold js_or. cbn.
    apply String.eqb_neq in Hne. rewrite Hne. reflexivity.
Qed.

Lemma getDatabase_switch fields db prot :
  fields !! "db" = Some db ->
  db <> VUndefined -> db <> VNull ->
  getDatabase (fun _ => Normal prot) (VObj fields)
  = Normal
      (if strict_eq_str prot "http:" || strict_eq_str prot "https:"
       then db_result "couchdb" "lockit-couchdb-adapter"
       else if strict_eq_str prot "mongodb:"
       then db_result "mongodb" "lockit-mongodb-adapter"
       else if strict_eq_str prot "postgres:"
       then db_result "postgresql" "lockit-sql-adapter"
       else if strict_eq_str prot "mysql:"
       then db_result "mysql" "lockit-sql-adapter"
       else if strict_eq_str prot "sqlite:"
       then db_result "sqlite" "lockit-sql-adapter"
       else VObj ∅).
Proof.
  intros Hdb Hu Hn. unfold getDatabase. cbn. rewrite Hdb. cbn.
  rewrite (get_prop_own _ _ Hu Hn). reflexivity.
Qed.

End GetDatabaseFacts.

Lemma descriptor_is_value db uri :
  descriptor_uri db uri -> db <> VUndefined /\ db <> VNull.
Proof. by intros []. Qed.

(** C4, as the code has it. For a connection descriptor (a URI string, or
    an object whose [url] is one) the resolver returns the type and the
    adapter the scheme of the URI stands for: [http] and [https] give
    couchdb, [mongodb] mongodb, [postgres] postgresql, [mysql] mysql,
    [sqlite] sqlite. For any other scheme, and for none, it reports no
    error: it returns an object with neither a type nor an adapter. *)
Theorem getDatabase_by_scheme
    (url_parse_protocol : value -> completion value)
    (fields : gmap string value) (db : value) (uri : string) (prot : value) :
  fields !! "db" = Some db ->
  descriptor_uri db uri ->
  url_parse_protocol (VStr uri) = Normal prot ->
  let resolved := getDatabase url_parse_protocol (VObj fields) in
  (prot = VStr "http:" \/ prot = VStr "https:" ->
     resolved = Normal (db_result "couchdb" "lockit-couchdb-adapter")) /\
  (prot = VStr "mongodb:" ->
     resolved = Normal (db_result "mongodb" "lockit-mongodb-adapter")) /\
  (prot = VStr "postgres:" ->
     resolved = Normal (db_result "postgresql" "lockit-sql-adapter")) /\
  (prot = VStr "mysql:" ->
     resolved = Normal (db_result "mysql" "lockit-sql-adapter")) /\
  (prot = VStr "sqlite:" ->
     resolved = Normal (db_result "sqlite" "lockit-sql-adapter")) /\
  ((forall p, In p known_protocols -> prot <> VStr p) ->
     resolved = Normal (VObj ∅)).
Proof.
  intros Hdb Hd Hp resolved. subst resolved.
  destruct (descriptor_is_value _ _ Hd) as [Hu Hn].
  rewrite (getDatabase_uri _ _ _ _ Hdb Hd), Hp. cbn [mbind completion_bind].
  rewrite (getDatabase_switch _ _ _ Hdb Hu Hn).
  repeat split.
  - by intros [->| ->].
  - by intros ->.
  - by intros ->.
  - by intros ->.
  - by intros ->.
  - intros Hk.
    assert (forall p, In p known_protocols -> strict_eq_str prot p = false)
      as Hf.
    { intros p Hin. specialize (Hk p Hin). destruct prot; try reflexivity.
      cbn. apply String.eqb_neq. congruence. }
    rewrite !Hf by (cbn; tauto). reflexivity.
Qed.

(** ** Session teardown *)

Section DestroyFacts.

Context {Callback : Type}.
Variable session_destroy :
  request -> Callback -> completion (outcome Callback).

Lemma destroy_with_store req done :
  truthy (sessionStore req) = true ->
  has_session req ->
  destroy session_destroy req done = session_destroy req done.
Proof.
  intros Hs [Hu Hn]. unfold destroy. rewrite Hs.
  by rewrite (get_prop_own _ _ Hu Hn).
Qed.

Lemma destroy_without_store req done :
  truthy (sessionStore req) = false ->
  destroy session_destroy req done
  = Normal {| req_after := {| session := VNull;
                              sessionStore := sessionStore req;
                              url := url req |};
              invoked := [done];
              returned := VUndefined |}.
Proof. intros Hs. unfold destroy. by rewrite Hs. Qed.

End DestroyFacts.

(** C8, as the code has it. With a session store on the request and a
    session object to go with it, [destroy] is the session's own [destroy],
    run with the completion callback: the session goes through the store,
    the callback is in the hands of that method, and what the method hands
    back (or throws) is what [destroy] hands back (or throws). With a store
    but no session object, [destroy] throws a [TypeError] and calls nothing.
    Without a store, the session reference on the request is set to [null],
    the callback is called, and [undefined] is handed back. *)
Theorem destroy_session {Callback : Type}
    (session_destroy : request -> Callback -> completion (outcome Callback))
    (req : request) (done : Callback) :
  (truthy (sessionStore req) = true -> has_session req ->
     destroy session_destroy req done = session_destroy req done) /\
  (truthy (sessionStore req) = true -> nullish (session req) ->
     destroy session_destroy req done = Throw TypeError) /\
  (truthy (sessionStore req) = false ->
     exists res, destroy session_destroy req done = Normal res /\
       session (req_after res) = VNull /\
       sessionStore (req_after res) = sessionStore req /\
       url (req_after res) = url req /\
       invoked res = [done] /\
       returned res = VUndefined).
Proof.
  split; [|split].
  - intros Hst Hs. by apply destroy_with_store.
  - intros Hst Hn. unfold destroy. rewrite Hst.
    by destruct Hn as [-> | ->].
  - intros Hst. rewrite (destroy_without_store _ _ _ Hst).
    eexists. split; [reflexivity|]. cbn. tauto.
Qed.

(** When the session's method keeps its promise to call back, so does
    [destroy], store or no store. *)
Lemma destroy_calls_back {Callback : Type}
    (session_destroy : request -> Callback -> completion (outcome Callback))
    (req : request) (done : Callback) :
  calls_back session_destroy ->
  (truthy (sessionStore req) = true -> has_session req) ->
  exists res, destroy session_destroy req done = Normal res /\
    In done (invoked res).
Proof.
  intros Hcb Hs. destruct (truthy (sessionStore req)) eqn:Hst.
  - rewrite (destroy_with_store _ _ _ Hst (Hs eq_refl)). apply Hcb.
  - rewrite (destroy_without_store _ _ _ Hst).
    eexists. split; [reflexivity|]. cbn. tauto.
Qed.

(** ** The base32 codec *)

Module SecretCodecFacts.
Import SecretCodec.

Lemma char_bits_quintet a b c d e :
  Ascii.eqb (quintet_char a b c d e) pad_char = false /\
  char_bits (quintet_char a b c d e) = Some [a; b; c; d; e].
Proof. destruct a, b, c, d, e; split; reflexivity. Qed.

Lemma decode_chars_padding k : decode_chars (repeat pad_char k) = Some [].
Proof.
  destruct k as [|k]; [reflexivity|]. cbn.
  assert (forallb (Ascii.eqb pad_char) (repeat pad_char k) = true) as ->;
    [|reflexivity].
  induction k; [reflexivity|]. cbn. exact IHk.
Qed.

Lemma decode_chars_quintet a b c d e cs bits :
  decode_chars cs = Some bits ->
  decode_chars (quintet_char a b c d e :: cs) = Some (a :: b :: c :: d :: e :: bits).
Proof.
  intros H. destruct (char_bits_quintet a b c d e) as [Hp Hb].
  cbn [decode_chars]. rewrite Hp, Hb, H. reflexivity.
Qed.

Lemma spare_step n : spare (5 + n) = spare n.
Proof.
  unfold spare. replace ((5 + n) mod 5)%nat with (n mod 5)%nat; [done|].
  rewrite <- (Nat.Div0.mod_add n 1 5). f_equal. lia.
Qed.

(** Bits go five at a time. *)
Lemma quintet_ind (P : list bool -> Prop) :
  P [] ->
  (forall a, P [a]) ->
  (forall a b, P [a; b]) ->
  (forall a b c, P [a; b; c]) ->
  (forall a b c d, P [a; b; c; d]) ->
  (forall a b c d e rest, P rest -> P (a :: b :: c :: d :: e :: rest)) ->
  forall bits, P bits.
Proof.
  intros H0 H1 H2 H3 H4 Hstep. fix go 1.
  intros [|a [|b [|c [|d [|e rest]]]]];
    [exact H0|apply H1|apply H2|apply H3|apply H4|apply Hstep, go].
Qed.

(** Decoding the characters of [bits] gives [bits] back, filled up with
    zeros to whole groups of five. *)
Lemma decode_encode_bits k bits :
  decode_chars (encode_bits bits ++ repeat pad_char k)
  = Some (bits ++ repeat false (spare (length bits))).
Proof.
  induction bits as [|a|a b|a b c|a b c d|a b c d e rest IH]
    using quintet_ind;
    try apply decode_chars_padding;
    try (apply decode_chars_quintet, decode_chars_padding).
  change (length (a :: b :: c :: d :: e :: rest))
    with (5 + length rest)%nat.
  rewrite spare_step.
  change (encode_bits (a :: b :: c :: d :: e :: rest))
    with (quintet_char a b c d e :: encode_bits rest).
  by apply decode_chars_quintet.
Qed.

Lemma byte_bits_octet b rest :
  octets (byte_bits b ++ rest) = b :: octets rest.
Proof.
  unfold byte_bits.
  destruct (Byte.to_bits b)
    as (b0 & b1 & b2 & b3 & b4 & b5 & b6 & b7) eqn:E.
  cbn [app octets]. f_equal. unfold bits_byte. rewrite <- E.
  apply Byte.of_bits_to_bits.
Qed.

Lemma octets_short z : (length z < 8)%nat -> octets z = [].
Proof.
  intros H.
  do 8 (destruct z as [|? z]; [reflexivity|]). cbn in H. lia.
Qed.

Lemma octets_bits_of_bytes s z :
  (length z < 8)%nat -> octets (bits_of_bytes s ++ z) = s.
Proof.
  intros Hz. induction s as [|b s IH]; cbn.
  - by apply octets_short.
  - rewrite <- app_assoc, byte_bits_octet. f_equal. exact IH.
Qed.

Lemma length_byte_bits b : length (byte_bits b) = 8%nat.
Proof.
  unfold byte_bits.
  by destruct (Byte.to_bits b) as (b0 & b1 & b2 & b3 & b4 & b5 & b6 & b7).
Qed.

Lemma length_bits_of_bytes s :
  length (bits_of_bytes s) = (8 * length s)%nat.
Proof.
  induction s as [|b s IH]; [reflexivity|].
  change (bits_of_bytes (b :: s)) with (byte_bits b ++ bits_of_bytes s).
  rewrite length_app, length_byte_bits, IH. cbn [length]. lia.
Qed.

Lemma padded_length n : ((n + padding n) mod 8 = 0)%nat.
Proof.
  unfold padding.
  pose proof (Nat.div_mod_eq n 8) as E.
  pose proof (Nat.mod_upper_bound n 8 ltac:(lia)) as B.
  destruct (Nat.eq_dec (n mod 8)%nat 0%nat) as [Hz|Hnz].
  - rewrite Hz. cbn. rewrite Nat.add_0_r. exact Hz.
  - rewrite (Nat.mod_small (8 - n mod 8)%nat 8%nat) by lia.
    replace (n + (8 - n mod 8))%nat with ((n / 8 + 1) * 8)%nat by lia.
    apply Nat.Div0.mod_mul.
Qed.

Lemma spare_small n : (spare n < 5)%nat.
Proof. apply Nat.mod_upper_bound. lia. Qed.

Lemma whole_bytes_spare n p :
  (p < 5)%nat -> ((8 * n + p) mod 8 <? 5)%nat = true.
Proof.
  intros Hp. apply Nat.ltb_lt.
  rewrite Nat.add_comm, Nat.mul_comm, Nat.Div0.mod_add, Nat.mod_small; lia.
Qed.

End SecretCodecFacts.

(** C5. Decoding the base32 text of a byte sequence gives the byte sequence
    back, for every byte sequence: [decode (encode s) = s]. *)
Theorem decode_encode (s : list byte) :
  SecretCodec.decode (SecretCodec.encode s) = inr s.
Proof.
  unfold SecretCodec.decode, SecretCodec.encode.
  rewrite list_ascii_of_string_of_list_ascii, length_app, repeat_length.
  rewrite SecretCodecFacts.padded_length. cbn [negb Nat.eqb].
  rewrite SecretCodecFacts.decode_encode_bits.
  rewrite length_app, repeat_length, SecretCodecFacts.length_bits_of_bytes.
  pose proof (SecretCodecFacts.spare_small (8 * length s)) as Hs.
  rewrite (SecretCodecFacts.whole_bytes_spare _ _ Hs).
  f_equal. apply SecretCodecFacts.octets_bits_of_bytes.
  rewrite repeat_length. lia.
Qed.

(** ** The QR link *)

Lemma append_assoc (a b c : string) : (a +:+ b) +:+ c = a +:+ b +:+ c.
Proof.
  induction a as [|x a IH]; [reflexivity|].
  change (String x ((a +:+ b) +:+ c) = String x (a +:+ b +:+ c)).
  by rewrite IH.
Qed.

(** The escape works character by character, so it goes through [+]. *)
Lemma encodeURIComponent_app (a b : string) :
  encodeURIComponent (a +:+ b) = encodeURIComponent a +:+ encodeURIComponent b.
Proof.
  induction a as [|x a IH]; [reflexivity|].
  change (encodeURIComponent (String x a +:+ b))
    with ((if uri_unreserved x then String x "" else percent_escape x)
          +:+ encodeURIComponent (a +:+ b)).
  rewrite IH. symmetry. apply append_assoc.
Qed.

Lemma prefix_app (p s : string) : String.prefix p (p +:+ s) = true.
Proof.
  induction p as [|x p IH]; [by destruct s|].
  change (String x p +:+ s) with (String x (p +:+ s)). cbn.
  destruct (ascii_dec x x); [exact IH|congruence].
Qed.

Lemma contains_has_infix (part s : string) :
  contains part s -> has_infix part s = true.
Proof.
  intros (before & after & ->).
  induction before as [|x before IH].
  - change ("" +:+ part +:+ after) with (part +:+ after).
    pose proof (prefix_app part after) as Hp.
    destruct (part +:+ after); cbn [has_infix]; by rewrite Hp.
  - change (String x before +:+ part +:+ after)
      with (String x (before +:+ part +:+ after)).
    cbn [has_infix]. rewrite IH. apply orb_true_r.
Qed.

Section QrFacts.

Variable base32_encode : value -> completion string.

Lemma provisioning_config_props key email issuer :
  get_prop (provisioning_config key email issuer) "key" = Normal key /\
  get_prop (provisioning_config key email issuer) "email"
  = Normal (VStr email) /\
  get_prop (provisioning_config key email issuer) "issuer"
  = Normal (VStr issuer).
Proof. repeat split; reflexivity. Qed.

Lemma qr_unfold key email issuer encoded :
  issuer <> "" ->
  base32_encode key = Normal encoded ->
  qr base32_encode (provisioning_config key email issuer)
  = Normal (qr_api +:+ encodeURIComponent
      ("otpauth://totp/" +:+ (issuer +:+ ":" +:+ email) +:+ "?secret="
       +:+ encoded +:+ "&issuer=" +:+ issuer)).
Proof.
  intros Hi He. apply String.eqb_neq in Hi.
  destruct (provisioning_config_props key email issuer) as (Hk & Hm & Hs).
  unfold qr. rewrite Hk, Hm, Hs. cbn [mbind completion_bind].
  rewrite He. unfold js_or. cbn [truthy]. rewrite Hi. reflexivity.
Qed.

(** Every separator of the URI is escaped along with its parts. *)
Lemma provisioning_uri_escaped issuer email encoded :
  encodeURIComponent
    ("otpauth://totp/" +:+ (issuer +:+ ":" +:+ email) +:+ "?secret="
     +:+ encoded +:+ "&issuer=" +:+ issuer)
  = "otpauth%3A%2F%2Ftotp%2F" +:+ encodeURIComponent issuer +:+ "%3A"
    +:+ encodeURIComponent email +:+ "%3Fsecret%3D"
    +:+ encodeURIComponent encoded +:+ "%26issuer%3D"
    +:+ encodeURIComponent issuer.
Proof.
  rewrite !encodeURIComponent_app, !append_assoc. reflexivity.
Qed.

End QrFacts.

(** C3, as the code has it. For every secret, [qr] called with the account
    label ["alice@example.com"] and the issuer ["Acme"] produces the address
    of the chart service followed by the provisioning URI escaped as one
    URI component: the link starts with
    [https://chart.googleapis.com/chart?chs=200x200&cht=qr&chl=otpauth%3A%2F%2Ftotp%2FAcme%3Aalice%40example.com%3Fsecret%3D]
    and contains [issuer%3DAcme]. In general the link is that address
    followed by the escape of
    [otpauth://totp/{issuer}:{email}?secret={base32}&issuer={issuer}],
    separators and all. *)
Theorem qr_chart_link (base32_encode : value -> completion string)
    (key : value) (encoded : string) :
  base32_encode key = Normal encoded ->
  (exists link,
     qr base32_encode (provisioning_config key "alice@example.com" "Acme")
     = Normal link /\
     starts_with
       (qr_api +:+
        "otpauth%3A%2F%2Ftotp%2FAcme%3Aalice%40example.com%3Fsecret%3D") link /\
     contains "issuer%3DAcme" link) /\
  (forall email issuer, issuer <> "" ->
     qr base32_encode (provisioning_config key email issuer)
     = Normal (qr_api +:+ encodeURIComponent
         ("otpauth://totp/" +:+ (issuer +:+ ":" +:+ email) +:+ "?secret="
          +:+ encoded +:+ "&issuer=" +:+ issuer)) /\
     qr base32_encode (provisioning_config key email issuer)
     = Normal (qr_api +:+ "otpauth%3A%2F%2Ftotp%2F"
         +:+ encodeURIComponent issuer +:+ "%3A"
         +:+ encodeURIComponent email +:+ "%3Fsecret%3D"
         +:+ encodeURIComponent encoded +:+ "%26issuer%3D"
         +:+ encodeURIComponent issuer)).
Proof.
  intros He. split.
  - eexists. split; [by apply qr_unfold|].
    rewrite provisioning_uri_escaped. split.
    + exists (encodeURIComponent encoded +:+ "%26issuer%3DAcme").
      rewrite !append_assoc. reflexivity.
    + exists (qr_api +:+ "otpauth%3A%2F%2Ftotp%2FAcme%3Aalice%40example.com%3Fsecret%3D"
              +:+ encodeURIComponent encoded +:+ "%26"), "".
      rewrite !append_assoc. reflexivity.
  - intros email issuer Hi. rewrite <- provisioning_uri_escaped.
    split; by apply qr_unfold.
Qed.

(** ** The one-time-password engine *)

Module OtpEngineFacts.
Import OtpEngine.

Lemma list_ascii_app (a b : string) :
  list_ascii_of_string (a +:+ b)
  = list_ascii_of_string a ++ list_ascii_of_string b.
Proof.
  induction a as [|x a IH]; [reflexivity|].
  change (String x a +:+ b) with (String x (a +:+ b)). cbn. by rewrite IH.
Qed.

(** Go through the cases of a finite disjunction of equations. *)
Ltac each_case H tac :=
  repeat (destruct H as [->|H]; [tac|]); subst; tac.

Lemma digit_char_is_digit d : 0 <= d < 10 -> is_digit (digit_char d) = true.
Proof.
  intros Hd.
  assert (d = 0 \/ d = 1 \/ d = 2 \/ d = 3 \/ d = 4 \/ d = 5 \/ d = 6
          \/ d = 7 \/ d = 8 \/ d = 9) as Hc by lia.
  each_case Hc ltac:(idtac; reflexivity).
Qed.

(** A rendered number is [width] characters, all of them digits. *)
Lemma decimal_shape width : forall n,
  length (list_ascii_of_string (decimal width n)) = width /\
  forallb is_digit (list_ascii_of_string (decimal width n)) = true.
Proof.
  induction width as [|w IH]; intros n; [by split|].
  cbn [decimal]. rewrite list_ascii_app. destruct (IH (n / 10)) as [Hl Hd].
  rewrite length_app, forallb_app, Hl, Hd. cbn.
  rewrite digit_char_is_digit by (apply Z.mod_pos_bound; lia).
  split; [lia|reflexivity].
Qed.

(** What [generate] makes is a code. *)
Lemma generate_is_code secret counter code :
  generate secret counter 6 = inr code -> is_code code = true.
Proof.
  unfold generate. destruct secret as [|b secret]; [discriminate|].
  intros H.
  assert (code = decimal 6
            (truncate (Sha1.hmac (b :: secret) (counter_bytes counter))
             mod 10 ^ Z.of_nat 6)) as -> by congruence.
  unfold is_code. apply andb_true_intro. split.
  - apply Nat.eqb_eq. apply (proj1 (decimal_shape 6 _)).
  - apply (proj2 (decimal_shape 6 _)).
Qed.

Lemma malformed_never_matches secret counter token :
  is_code token = false ->
  code_matches (generate secret counter 6) token = false.
Proof.
  intros Ht. unfold code_matches.
  destruct (generate secret counter 6) as [|code] eqn:Hg; [reflexivity|].
  apply String.eqb_neq. intros ->.
  apply generate_is_code in Hg. congruence.
Qed.

Lemma find_nowhere {A} (p : A -> bool) (l : list A) :
  (forall x, In x l -> p x = false) -> find p l = None.
Proof.
  induction l as [|x l IH]; intros H; [reflexivity|]. cbn.
  rewrite (H x) by (by left). apply IH. intros y Hy. apply H. by right.
Qed.

Lemma find_only {A} `{EqDecision A} (p : A -> bool) (l : list A) (d : A) :
  In d l -> p d = true ->
  (forall x, In x l -> x <> d -> p x = false) ->
  find p l = Some d.
Proof.
  induction l as [|x l IH]; intros Hin Hp Hother; [destruct Hin|]. cbn.
  destruct (p x) eqn:Hx.
  - destruct (decide (x = d)) as [->|Hne]; [reflexivity|].
    rewrite (Hother x) in Hx; [discriminate|by left|exact Hne].
  - destruct Hin as [->|Hin]; [congruence|].
    apply IH; [exact Hin|exact Hp|]. intros y Hy. apply Hother. by right.
Qed.

End OtpEngineFacts.

Module WindowFacts.
Import OtpEngineFacts.

Lemma in_offsets w d :
  In d (OtpEngine.offsets w) <-> 0 < Z.abs d <= Z.of_nat w.
Proof.
  induction w as [|m IH]; [cbn; lia|].
  cbn [OtpEngine.offsets]. rewrite in_app_iff, IH. cbn [In]. lia.
Qed.

(** The search covers the window and nothing else. *)
Lemma in_search_order w d :
  In d (OtpEngine.search_order w) <-> Z.abs d <= Z.of_nat w.
Proof. unfold OtpEngine.search_order. cbn [In]. rewrite in_offsets. lia. Qed.

Lemma window_of_explicit_options (w : nat) (step : positive) :
  OtpEngine.window_of_options
    (VObj (<["window" := VNum (Z.of_nat w)]>
             (<["time" := VNum (Z.pos step)]> ∅)))
  = {| OtpEngine.windowSize := w; OtpEngine.timeStep := step |}.
Proof.
  unfold OtpEngine.window_of_options.
  change (own_prop _ "window") with (VNum (Z.of_nat w)).
  change (own_prop _ "time") with (VNum (Z.pos step)).
  cbv beta iota. rewrite Nat2Z.id.
  assert ((0 <=? Z.of_nat w) = true) as -> by (apply Z.leb_le; lia).
  reflexivity.
Qed.

Lemma window_of_no_options :
  OtpEngine.window_of_options (js_or VUndefined (VObj ∅)) = OtpEngine.default_window.
Proof. reflexivity. Qed.


(** What the wrapper makes of each answer of the search. *)
Lemma verify_of_search now token key options :
  verify (OtpEngine.totp_verify now) token key options
  = Normal (VBool
      match OtpEngine.verify token key
              (OtpEngine.window_of_options (js_or options (VObj ∅))) now with
      | OtpEngine.Matched delta => delta =? 0
      | OtpEngine.NoMatch => false
      end).
Proof.
  rewrite (verify_normal _ _ _ _ _ eq_refl).
  by destruct (OtpEngine.verify _ _ _ _).
Qed.

(** A token that is no code finds nothing in any window. *)
Lemma malformed_no_match token secret window now :
  is_code token = false ->
  OtpEngine.verify token secret window now = OtpEngine.NoMatch.
Proof.
  intros Ht. unfold OtpEngine.verify. rewrite find_nowhere; [reflexivity|].
  intros d _. by apply malformed_never_matches.
Qed.

(** The code of the current counter is found at once, at offset zero. *)
Lemma current_code_matches secret window now code :
  OtpEngine.generate secret (now / Z.pos (OtpEngine.timeStep window)) 6 = inr code ->
  OtpEngine.verify code secret window now = OtpEngine.Matched 0.
Proof.
  intros Hg. unfold OtpEngine.verify, OtpEngine.search_order. cbn [find].
  rewrite Z.add_0_r, Hg. cbn [OtpEngine.code_matches]. by rewrite String.eqb_refl.
Qed.

(** With no other offset of the window giving the same code, the search
    reports the offset the code was made for, if the window has it. *)
Lemma search_finds secret w step now k code :
  let window := {| OtpEngine.windowSize := w; OtpEngine.timeStep := step |} in
  OtpEngine.generate secret (now / Z.pos step + k) 6 = inr code ->
  (forall j, Z.abs j <= Z.of_nat w -> j <> k ->
     OtpEngine.generate secret (now / Z.pos step + j) 6 <> inr code) ->
  OtpEngine.verify code secret window now
  = if Z.abs k <=? Z.of_nat w then OtpEngine.Matched k else OtpEngine.NoMatch.
Proof.
  intros window Hg Hother. unfold OtpEngine.verify. cbn [OtpEngine.windowSize OtpEngine.timeStep window].
  assert (forall j, Z.abs j <= Z.of_nat w -> j <> k ->
    OtpEngine.code_matches (OtpEngine.generate secret (now / Z.pos step + j) 6) code = false)
    as Hmiss.
  { intros j Hj Hne. specialize (Hother j Hj Hne). unfold OtpEngine.code_matches.
    destruct (OtpEngine.generate secret (now / Z.pos step + j) 6) as [|c];
      [reflexivity|].
    apply String.eqb_neq. congruence. }
  destruct (Z.leb_spec (Z.abs k) (Z.of_nat w)) as [Hin|Hout].
  - rewrite (find_only _ _ k); [reflexivity| | |].
    + by apply in_search_order.
    + rewrite Hg. cbn. apply String.eqb_refl.
    + intros j Hj Hne. apply Hmiss; [by apply in_search_order|exact Hne].
  - rewrite find_nowhere; [reflexivity|].
    intros j Hj%in_search_order. apply Hmiss; lia.
Qed.

End WindowFacts.

(** C6. Whatever string is submitted as the token, well formed or not, the
    exported [verify] over the engine completes normally with a Boolean; and
    a token that is no six-digit code (wrong length, a character that is no
    digit) is reported as an ordinary non-match, [false]. *)
Theorem verify_never_throws (now : Z) (token : string) (key : list byte)
    (options : value) :
  (verify (OtpEngine.totp_verify now) token key options = Normal (VBool true)
   \/ verify (OtpEngine.totp_verify now) token key options
      = Normal (VBool false)) /\
  (forall e, verify (OtpEngine.totp_verify now) token key options <> Throw e) /\
  (is_code token = false ->
   OtpEngine.verify token key
     (OtpEngine.window_of_options (js_or options (VObj ∅))) now
   = OtpEngine.NoMatch /\
   verify (OtpEngine.totp_verify now) token key options
   = Normal (VBool false)).
Proof.
  rewrite WindowFacts.verify_of_search. split; [|split].
  - match goal with |- context [VBool ?b] => destruct b end; auto.
  - discriminate.
  - intros Ht. rewrite (WindowFacts.malformed_no_match _ _ _ _ Ht). done.
Qed.

(** C2, as the code has it. For a non-empty secret, a window size [w], a
    time step and a time [now], take the code generated for the counter
    [currentCounter + k], with [currentCounter = floor(now / timeStep)], and
    suppose no other offset of the window yields that same code. Then the
    window search reports a match with [delta = k] when [|k| <= w] and no
    match when [|k| > w]; and the exported [verify], which accepts zero
    drift only, answers [true] exactly when [k = 0]. *)
Theorem verify_drift (secret : list byte) (w : nat) (step : positive)
    (now k : Z) (code : string) :
  let currentCounter := now / Z.pos step in
  let window := {| OtpEngine.windowSize := w; OtpEngine.timeStep := step |} in
  let options :=
    VObj (<["window" := VNum (Z.of_nat w)]>
            (<["time" := VNum (Z.pos step)]> ∅)) in
  OtpEngine.generate secret (currentCounter + k) 6 = inr code ->
  (forall j, Z.abs j <= Z.of_nat w -> j <> k ->
     OtpEngine.generate secret (currentCounter + j) 6 <> inr code) ->
  (Z.abs k <= Z.of_nat w ->
     OtpEngine.verify code secret window now = OtpEngine.Matched k) /\
  (Z.of_nat w < Z.abs k ->
     OtpEngine.verify code secret window now = OtpEngine.NoMatch) /\
  verify (OtpEngine.totp_verify now) code secret options
  = Normal (VBool (k =? 0)).
Proof.
  intros currentCounter window options Hg Hother.
  pose proof (WindowFacts.search_finds secret w step now k code Hg Hother)
    as Hs. cbv zeta in Hs. fold window in Hs.
  split; [|split].
  - intros Hk. rewrite Hs. by apply Z.leb_le in Hk as ->.
  - intros Hk. rewrite Hs. by apply Z.leb_gt in Hk as ->.
  - rewrite WindowFacts.verify_of_search.
    change (js_or options (VObj ∅)) with options. unfold options.
    rewrite WindowFacts.window_of_explicit_options. fold window. rewrite Hs.
    destruct (Z.leb_spec (Z.abs k) (Z.of_nat w)) as [Hin|Hout];
      [reflexivity|].
    f_equal. f_equal. symmetry. apply Z.eqb_neq. lia.
Qed.

(** ** Worked inputs *)

(** FIPS 180-4 and RFC 2202 vectors for the digest. *)
Example sha1_abc :
  Sha1.sha1 (list_byte_of_string "abc")
  = map Sha1.Z_byte
      [0xA9; 0x99; 0x3E; 0x36; 0x47; 0x06; 0x81; 0x6A; 0xBA; 0x3E;
       0x25; 0x71; 0x78; 0x50; 0xC2; 0x6C; 0x9C; 0xD0; 0xD8; 0x9D].
Proof. vm_compute. reflexivity. Qed.

Example hmac_rfc2202_case2 :
  Sha1.hmac (list_byte_of_string "Jefe")
    (list_byte_of_string "what do ya want for nothing?")
  = map Sha1.Z_byte
      [0xEF; 0xFC; 0xDF; 0x6A; 0xE5; 0xEB; 0x2F; 0xA2; 0xD2; 0x74;
       0x16; 0xD5; 0xF1; 0x84; 0xDF; 0x9C; 0x25; 0x9A; 0x7C; 0x79].
Proof. vm_compute. reflexivity. Qed.

Example hmac_rfc2202_case6 :
  Sha1.hmac (repeat (Sha1.Z_byte 0xAA) 80)
    (list_byte_of_string
       "Test Using Larger Than Block-Size Key - Hash Key First")
  = map Sha1.Z_byte
      [0xAA; 0x4A; 0xE5; 0xE1; 0x52; 0x72; 0xD0; 0x0E; 0x95; 0x70;
       0x56; 0x37; 0xCE; 0x8A; 0x3B; 0x55; 0xED; 0x40; 0x21; 0x12].
Proof. vm_compute. reflexivity. Qed.

(** The vector of section 8: at Unix time 59 with a step of 30 the code is
    [94287082] on eight digits and [287082] on six. *)
Example rfc6238_vector :
  OtpEngine.generate rfc_secret (59 / 30) 8 = inr "94287082" /\
  OtpEngine.generate rfc_secret (59 / 30) 6 = inr "287082".
Proof. split; vm_compute; reflexivity. Qed.

(** RFC 4226, appendix D: the codes of counters 0 to 9. *)
Example rfc4226_vectors :
  map (fun c => OtpEngine.generate rfc_secret c 6) [0; 1; 2; 3; 4; 5; 6; 7; 8; 9]
  = map inr ["755224"; "287082"; "359152"; "969429"; "338314";
             "254676"; "287922"; "162583"; "399871"; "520489"].
Proof. vm_compute. reflexivity. Qed.

Example base32_rfc4648 :
  map (fun s => SecretCodec.encode (list_byte_of_string s))
      [""; "f"; "fo"; "foo"; "foob"; "fooba"; "foobar"]
  = [""; "MY======"; "MZXQ===="; "MZXW6==="; "MZXW6YQ="; "MZXW6YTB";
     "MZXW6YTBOI======"].
Proof. vm_compute. reflexivity. Qed.

Example base32_rejects :
  SecretCodec.decode "MZXW6YQ" = inl SecretCodec.InvalidEncodingError /\
  SecretCodec.decode "MZXW6=Q=" = inl SecretCodec.InvalidEncodingError /\
  SecretCodec.decode "MZXW61Q=" = inl SecretCodec.InvalidEncodingError /\
  SecretCodec.decode "MZX=====" = inl SecretCodec.InvalidEncodingError /\
  SecretCodec.decode "mzxw6yq=" = inr (list_byte_of_string "foob").
Proof. repeat split; vm_compute; reflexivity. Qed.

(** The two configurations of the JSDoc of [getDatabase]. *)
Example getDatabase_couchdb :
  getDatabase node_url_protocol
    (VObj (<["db" := VStr "http://127.0.0.1:5984/"]> ∅))
  = Normal (db_result "couchdb" "lockit-couchdb-adapter").
Proof. vm_compute. reflexivity. Qed.

Example getDatabase_postgres :
  getDatabase node_url_protocol
    (VObj (<["db" := VObj (<["url" := VStr "postgres://127.0.0.1:5432/"]>
                            (<["name" := VStr "users"]>
                               (<["collection" := VStr "my_user_table"]> ∅)))]>
             ∅))
  = Normal (db_result "postgresql" "lockit-sql-adapter").
Proof. vm_compute. reflexivity. Qed.

(** An issuer left out is ['Lockit']. *)
Example qr_default_issuer :
  qr thirty_two_encode
    (VObj (<["key" := VStr "abcd1234"]>
             (<["email" := VStr "mirco.zeiss@gmail.com"]> ∅)))
  = Normal ("https://chart.googleapis.com/chart?chs=200x200&cht=qr&chl="
            +:+ "otpauth%3A%2F%2Ftotp%2FLockit%3Amirco.zeiss%40gmail.com"
            +:+ "%3Fsecret%3DMFRGGZBRGIZTI%3D%3D%3D%26issuer%3DLockit").
Proof. vm_compute. reflexivity. Qed.

(** C1, at work: the code of the current step, found at offset zero. *)
Lemma verify_accepts_zero_drift_only_witness :
  OtpEngine.totp_verify 59 "287082" rfc_secret (js_or VUndefined (VObj ∅))
  = Normal (OtpEngine.result_value (OtpEngine.Matched 0)) /\
  ((verify (OtpEngine.totp_verify 59) "287082" rfc_secret VUndefined
    = Normal (VBool true)
    <-> found_at (OtpEngine.result_value (OtpEngine.Matched 0)) 0) /\
   (forall d, d <> 0 ->
      found_at (OtpEngine.result_value (OtpEngine.Matched 0)) d ->
      verify (OtpEngine.totp_verify 59) "287082" rfc_secret VUndefined
      = Normal (VBool false))).
Proof.
  assert (OtpEngine.totp_verify 59 "287082" rfc_secret
            (js_or VUndefined (VObj ∅))
          = Normal (OtpEngine.result_value (OtpEngine.Matched 0))) as H
    by (vm_compute; reflexivity).
  split; [exact H|].
  exact (verify_accepts_zero_drift_only _ _ _ _ _ H).
Defined.

(** C9, at work: a match one step late is answered with a plain [false]. *)
Lemma verify_returns_boolean_witness :
  OtpEngine.totp_verify 59 "359152" rfc_secret (js_or VUndefined (VObj ∅))
  = Normal (OtpEngine.result_value (OtpEngine.Matched 1)) /\
  (verify (OtpEngine.totp_verify 59) "359152" rfc_secret VUndefined
   = Normal (VBool true)
   \/ verify (OtpEngine.totp_verify 59) "359152" rfc_secret VUndefined
      = Normal (VBool false)).
Proof.
  assert (OtpEngine.totp_verify 59 "359152" rfc_secret
            (js_or VUndefined (VObj ∅))
          = Normal (OtpEngine.result_value (OtpEngine.Matched 1))) as H
    by (vm_compute; reflexivity).
  split; [exact H|].
  exact (verify_returns_boolean _ _ _ _ _ H).
Defined.

(** C7, at work: a visitor who is not logged in asks for [/private]. *)
Lemma restrict_gate_witness :
  has_session visitor_request /\
  exists g, restrict signin_config = Normal g /\
    (authenticated visitor_request = true ->
       g visitor_request = Normal Proceed) /\
    (authenticated visitor_request = false ->
     machine_client signin_config = true ->
       g visitor_request = Normal (SendStatus 401)) /\
    (authenticated visitor_request = false ->
     machine_client signin_config = false ->
       g visitor_request = Normal
         (RedirectTo (login_route signin_config +:+ "?redirect="
                    +:+ url visitor_request))) /\
    (forall route,
       own_prop signin_config "loginRoute" = VStr route -> route <> "" ->
       login_route signin_config = route).
Proof.
  assert (has_session visitor_request) as H by (split; discriminate).
  split; [exact H|]. exact (restrict_gate signin_config visitor_request H).
Defined.

(** The same visitor, outcome spelled out. *)
Example restrict_visitor_redirected :
  exists g, restrict signin_config = Normal g /\
    g visitor_request = Normal (RedirectTo "/signin?redirect=/private").
Proof. eexists. split; reflexivity. Qed.

(** C10, at work: no configuration, no login. *)
Lemma restrict_default_route_witness :
  has_session fresh_request /\ authenticated fresh_request = false /\
  machine_client VUndefined = false /\
  exists g, restrict VUndefined = Normal g /\
    g fresh_request
    = Normal (RedirectTo ("/login?redirect=" +:+ url fresh_request)).
Proof.
  assert (has_session fresh_request) as H by (split; discriminate).
  split; [exact H|]. split; [reflexivity|]. split; [reflexivity|].
  exact (restrict_default_route VUndefined fresh_request
           (or_introl eq_refl) H eq_refl eq_refl).
Defined.

(** C4, at work: the CouchDB address of the JSDoc. *)
Lemma getDatabase_by_scheme_witness :
  couchdb_fields !! "db" = Some (VStr "http://127.0.0.1:5984/") /\
  node_url_protocol (VStr "http://127.0.0.1:5984/") = Normal (VStr "http:") /\
  getDatabase node_url_protocol (VObj couchdb_fields)
  = Normal (db_result "couchdb" "lockit-couchdb-adapter").
Proof.
  assert (couchdb_fields !! "db" = Some (VStr "http://127.0.0.1:5984/"))
    as Hdb by reflexivity.
  assert (node_url_protocol (VStr "http://127.0.0.1:5984/")
          = Normal (VStr "http:")) as Hp by reflexivity.
  split; [exact Hdb|]. split; [exact Hp|].
  exact (proj1 (getDatabase_by_scheme node_url_protocol couchdb_fields _ _ _
                  Hdb (uri_string _) Hp) (or_introl eq_refl)).
Defined.

(** C4 as the specification words it fails: a scheme the resolver does not
    know is no error, the answer is an empty object. *)
Lemma getDatabase_unknown_scheme :
  node_url_protocol (VStr "ftp://127.0.0.1/") = Normal (VStr "ftp:") /\
  getDatabase node_url_protocol (VObj (<["db" := VStr "ftp://127.0.0.1/"]> ∅))
  = Normal (VObj ∅).
Proof. split; vm_compute; reflexivity. Qed.

(** C8, at work: a store-backed session and express-session's method. *)
Lemma destroy_session_witness :
  truthy (sessionStore stored_request) = true /\
  has_session stored_request /\
  destroy express_session_destroy stored_request "done"
  = express_session_destroy stored_request "done".
Proof.
  assert (has_session stored_request) as Hs by (split; discriminate).
  split; [reflexivity|]. split; [exact Hs|].
  exact (proj1 (destroy_session express_session_destroy stored_request "done")
           eq_refl Hs).
Defined.

(** C8 as the specification words it fails: a request that has its store
    but has lost its session object. [destroy] throws, and the callback is
    never called. *)
Lemma destroy_without_session_throws :
  truthy (sessionStore gone_request) = true /\
  destroy express_session_destroy gone_request "done" = Throw TypeError.
Proof. split; reflexivity. Qed.

(** C7 as the specification words it fails: a machine client whose request
    has had its session cleared is not answered 401; the guard throws. *)
Lemma restrict_cleared_session_throws :
  authenticated cleared_request = false /\
  machine_client rest_config = true /\
  (restrict rest_config ≫= fun g => g cleared_request) = Throw TypeError.
Proof. repeat split; reflexivity. Qed.

(** C10 as the specification words it fails: with no configuration, a
    request without a session object is unauthenticated and no machine
    client, and is not redirected; the guard throws. *)
Lemma restrict_sessionless_not_redirected :
  authenticated gone_request = false /\
  machine_client VUndefined = false /\
  (restrict VUndefined ≫= fun g => g gone_request) = Throw TypeError.
Proof. repeat split; reflexivity. Qed.

(** With express-session underneath, the store case hands the session
    object back; the cookie case hands back [undefined]. *)
Example destroy_store_case :
  destroy express_session_destroy stored_request "done"
  = Normal {| req_after := {| session := VUndefined;
                              sessionStore := VObj ∅;
                              url := "/logout" |};
              invoked := ["done"];
              returned := VObj (<["loggedIn" := VBool true]> ∅) |}.
Proof. reflexivity. Qed.

Example destroy_cookie_case :
  destroy express_session_destroy visitor_request "done"
  = Normal {| req_after := {| session := VNull;
                              sessionStore := VUndefined;
                              url := "/private" |};
              invoked := ["done"];
              returned := VUndefined |}.
Proof. reflexivity. Qed.

(** C3, at work: the link for the key [abcd1234]. *)
Lemma qr_chart_link_witness :
  thirty_two_encode (VStr "abcd1234") = Normal "MFRGGZBRGIZTI===" /\
  exists link,
    qr thirty_two_encode
      (provisioning_config (VStr "abcd1234") "alice@example.com" "Acme")
    = Normal link /\
    starts_with
      (qr_api +:+
       "otpauth%3A%2F%2Ftotp%2FAcme%3Aalice%40example.com%3Fsecret%3D") link /\
    contains "issuer%3DAcme" link.
Proof.
  assert (thirty_two_encode (VStr "abcd1234") = Normal "MFRGGZBRGIZTI===")
    as H by reflexivity.
  split; [exact H|].
  exact (proj1 (qr_chart_link thirty_two_encode _ _ H)).
Defined.

(** C3 as the specification words it fails: the link starts with the chart
    service, not with [otpauth://], and no [=] of the URI survives the
    escape. *)
Lemma qr_link_is_escaped :
  qr thirty_two_encode
    (provisioning_config (VStr "abcd1234") "alice@example.com" "Acme")
  = Normal ("https://chart.googleapis.com/chart?chs=200x200&cht=qr&chl="
            +:+ "otpauth%3A%2F%2Ftotp%2FAcme%3Aalice%40example.com"
            +:+ "%3Fsecret%3DMFRGGZBRGIZTI%3D%3D%3D%26issuer%3DAcme") /\
  ~ starts_with "otpauth://totp/Acme%3Aalice%40example.com?secret="
      ("https://chart.googleapis.com/chart?chs=200x200&cht=qr&chl="
       +:+ "otpauth%3A%2F%2Ftotp%2FAcme%3Aalice%40example.com"
       +:+ "%3Fsecret%3DMFRGGZBRGIZTI%3D%3D%3D%26issuer%3DAcme") /\
  ~ contains "issuer=Acme"
      ("https://chart.googleapis.com/chart?chs=200x200&cht=qr&chl="
       +:+ "otpauth%3A%2F%2Ftotp%2FAcme%3Aalice%40example.com"
       +:+ "%3Fsecret%3DMFRGGZBRGIZTI%3D%3D%3D%26issuer%3DAcme").
Proof.
  split; [vm_compute; reflexivity|]. split.
  - intros [rest H]. vm_compute in H. discriminate H.
  - intros H%contains_has_infix. vm_compute in H. discriminate H.
Qed.

(** C6, at work: a token with a letter in it. *)
Lemma verify_never_throws_witness :
  is_code "12a456" = false /\
  verify (OtpEngine.totp_verify 59) "12a456" rfc_secret VUndefined
  = Normal (VBool false).
Proof.
  assert (is_code "12a456" = false) as H by reflexivity.
  split; [exact H|].
  exact (proj2 (proj2 (proj2 (verify_never_throws 59 "12a456" rfc_secret
                                VUndefined)) H)).
Defined.

(** C2, at work: the code of the step after the current one, window 6. *)
Lemma verify_drift_witness :
  OtpEngine.generate rfc_secret (59 / 30 + 1) 6 = inr "359152" /\
  (forall j, Z.abs j <= Z.of_nat 6 -> j <> 1 ->
     OtpEngine.generate rfc_secret (59 / 30 + j) 6 <> inr "359152") /\
  OtpEngine.verify "359152" rfc_secret
    {| OtpEngine.windowSize := 6; OtpEngine.timeStep := 30 |} 59
  = OtpEngine.Matched 1 /\
  verify (OtpEngine.totp_verify 59) "359152" rfc_secret
    (VObj (<["window" := VNum (Z.of_nat 6)]> (<["time" := VNum 30]> ∅)))
  = Normal (VBool false).
Proof.
  assert (OtpEngine.generate rfc_secret (59 / 30 + 1) 6 = inr "359152")
    as Hg by (vm_compute; reflexivity).
  assert (forall j, Z.abs j <= Z.of_nat 6 -> j <> 1 ->
            OtpEngine.generate rfc_secret (59 / 30 + j) 6 <> inr "359152")
    as Hother.
  { intros j Hj Hne.
    assert (j = -6 \/ j = -5 \/ j = -4 \/ j = -3 \/ j = -2 \/ j = -1
            \/ j = 0 \/ j = 2 \/ j = 3 \/ j = 4 \/ j = 5 \/ j = 6) as Hc
      by lia.
    OtpEngineFacts.each_case Hc ltac:(idtac; vm_compute; discriminate). }
  pose proof (verify_drift rfc_secret 6 30 59 1 "359152" Hg Hother)
    as (Hin & _ & Hv).
  split; [exact Hg|]. split; [exact Hother|]. split; [|exact Hv].
  apply Hin. vm_compute. discriminate.
Defined.

(** C2 as the specification words it fails. Counters 153567 and 153569
    give the same code under the RFC secret. Seen from counter 153568 the
    code made for offset [+1] is found at offset [-1], and the exported
    [verify] says [false], inside a window of 6. Seen from counter 153567
    with a window of 1, the code made for offset [+2], outside the window,
    is found at offset 0, and the exported [verify] says [true]. *)
Lemma verify_drift_collision :
  OtpEngine.generate rfc_secret (4607040 / 30 + 1) 6 = inr "468457" /\
  Z.abs 1 <= 6 /\
  OtpEngine.verify "468457" rfc_secret OtpEngine.default_window 4607040
  = OtpEngine.Matched (-1) /\
  verify (OtpEngine.totp_verify 4607040) "468457" rfc_secret VUndefined
  = Normal (VBool false) /\
  OtpEngine.generate rfc_secret (4607010 / 30 + 2) 6 = inr "468457" /\
  1 < Z.abs 2 /\
  OtpEngine.verify "468457" rfc_secret
    {| OtpEngine.windowSize := 1; OtpEngine.timeStep := 30 |} 4607010
  = OtpEngine.Matched 0 /\
  verify (OtpEngine.totp_verify 4607010) "468457" rfc_secret
    (VObj (<["window" := VNum 1]> ∅))
  = Normal (VBool true).
Proof. repeat split; try (vm_compute; reflexivity); vm_compute; discriminate. Qed.

(** * Further properties of the five functions *)

(** ** restrict *)

(** The guard, case by case: with a session it decides, without one the
    read of [loggedIn] throws. *)
Lemma guard_cases config :
  exists g, restrict config = Normal g /\
    forall req,
      (has_session req /\
       g req = Normal
         (if authenticated req then Proceed
          else if machine_client config then SendStatus 401
          else RedirectTo (login_route config +:+ "?redirect=" +:+ url req)))
      \/ (nullish (session req) /\ g req = Throw TypeError).
Proof.
  unfold restrict. rewrite !get_prop_config. cbn.
  eexists. split; [reflexivity|]. cbn beta. intros [s st u]. cbn [session].
  destruct s as [| |b|n|t|fields];
    try (right; split; [by (left + right)|reflexivity]);
    (left; split; [split; discriminate|]);
    unfold authenticated, machine_client, login_route; cbn;
    repeat match goal with
           | |- context [if ?c then _ else _] => destruct c
           end; reflexivity.
Qed.

Lemma nullish_no_session req : nullish (session req) <-> ~ has_session req.
Proof.
  unfold nullish, has_session. split.
  - intros [H|H] [Hu Hn]; congruence.
  - intros H. destruct (session req); try (by left); try (by right);
      exfalso; apply H; split; discriminate.
Qed.


(** X2. What the guard did tells what it saw: it calls the next handler
    only for an authenticated session, the only status it ever sends is
    401 and only to an unauthenticated machine client, and it redirects only
    an unauthenticated request of another client, to the login route with
    the URL attached. *)
Theorem restrict_guard_inversion (config : value) :
  exists g, restrict config = Normal g /\
    forall req,
      (g req = Normal Proceed -> has_session req /\ authenticated req = true) /\
      (forall code, g req = Normal (SendStatus code) ->
         code = 401 /\ authenticated req = false /\
         machine_client config = true) /\
      (forall location, g req = Normal (RedirectTo location) ->
         authenticated req = false /\ machine_client config = false /\
         location = login_route config +:+ "?redirect=" +:+ url req).
Proof.
  destruct (guard_cases config) as (g & Hg & Hc). exists g.
  split; [exact Hg|]. intros req.
  destruct (Hc req) as [[Hs ->]|[Hn ->]]; [|by repeat split].
  destruct (authenticated req), (machine_client config);
    (split; [|split]); intros; simplify_eq; done.
Qed.

(** X3. A [loginRoute] that is falsy (the empty string, [null], [0],
    [false], or none at all) counts as none: a request that carries a
    session object and is neither authenticated nor from a machine client is
    redirected to ['/login']. *)
Theorem restrict_falsy_login_route (config : value) (req : request) :
  truthy (own_prop config "loginRoute") = false ->
  has_session req ->
  authenticated req = false ->
  machine_client config = false ->
  exists g, restrict config = Normal g /\
    g req = Normal (RedirectTo ("/login?redirect=" +:+ url req)).
Proof.
  intros Hr Hs Ha Hm. destruct (restrict_guard config req Hs) as (g & Hg & Hreq).
  exists g. split; [exact Hg|]. rewrite Hreq, Ha, Hm.
  unfold login_route, js_or. by rewrite Hr.
Qed.

Lemma restrict_falsy_login_route_witness :
  truthy (own_prop blank_route_config "loginRoute") = false /\
  has_session visitor_request /\
  exists g, restrict blank_route_config = Normal g /\
    g visitor_request
    = Normal (RedirectTo ("/login?redirect=" +:+ url visitor_request)).
Proof.
  assert (has_session visitor_request) as H by (split; discriminate).
  split; [reflexivity|]. split; [exact H|].
  exact (restrict_falsy_login_route blank_route_config visitor_request
           eq_refl H eq_refl eq_refl).
Defined.

(** ** getDatabase *)

Lemma classic_nullish v : nullish v \/ ~ nullish v.
Proof.
  unfold nullish.
  destruct v; try (left; by (left + right)); right; intros [?|?]; discriminate.
Qed.

Section GetDatabaseMore.

Variable url_parse_protocol : value -> completion value.

(** The resolver, once the configuration has a descriptor: the parser is
    asked about the [url] of the descriptor if that is truthy, about the
    descriptor itself if not. *)
Lemma getDatabase_asks config db :
  own_prop config "db" = db -> ~ nullish db ->
  getDatabase url_parse_protocol config
  = (prot ← url_parse_protocol (js_or (own_prop db "url") db);
     getDatabase (fun _ => Normal prot) (VObj (<["db" := VStr ""]> ∅))).
Proof.
  intros Hdb Hn. unfold getDatabase.
  assert (get_prop config "db" = Normal db) as ->.
  { destruct config; cbn in *; try (subst db; exfalso; apply Hn; by left);
      by subst db. }
  cbn [mbind completion_bind].
  rewrite (get_prop_own db "url")
    by (intros ->; apply Hn; by (left + right)).
  cbn [mbind completion_bind own_prop get_prop].
  destruct (url_parse_protocol _); reflexivity.
Qed.

Lemma getDatabase_nullish config :
  nullish (own_prop config "db") ->
  getDatabase url_parse_protocol config = Throw TypeError.
Proof.
  intros Hn. unfold getDatabase.
  destruct config as [| |b|n|s|fields]; try reflexivity.
  cbn in *. by destruct Hn as [-> | ->].
Qed.

End GetDatabaseMore.

(** X4. Whatever the configuration and the parser, an answer of the
    resolver is one of six objects: the empty one, or one of the five pairs
    of a type and its adapter. No type comes without its adapter. *)
Theorem getDatabase_range (url_parse_protocol : value -> completion value)
    (config res : value) :
  getDatabase url_parse_protocol config = Normal res -> In res db_results.
Proof.
  intros H.
  destruct (classic_nullish (own_prop config "db")) as [Hn|Hn].
  - by rewrite getDatabase_nullish in H.
  - rewrite (getDatabase_asks _ _ _ eq_refl Hn) in H.
    destruct (url_parse_protocol _) as [prot|e]; [|discriminate].
    cbn in H. injection H as <-. unfold db_results.
    repeat match goal with
           | |- context [if ?c then _ else _] => destruct c
           end; cbn; tauto.
Qed.

Lemma getDatabase_range_witness :
  getDatabase node_url_protocol (VObj couchdb_fields)
  = Normal (db_result "couchdb" "lockit-couchdb-adapter") /\
  In (db_result "couchdb" "lockit-couchdb-adapter") db_results.
Proof.
  assert (getDatabase node_url_protocol (VObj couchdb_fields)
          = Normal (db_result "couchdb" "lockit-couchdb-adapter")) as H
    by reflexivity.
  split; [exact H|]. exact (getDatabase_range node_url_protocol _ _ H).
Defined.

(** X5. Without a descriptor (no configuration, no [db] in it, or a [db]
    that is [null]) the resolver throws a [TypeError] before the parser is
    asked anything. *)
Theorem getDatabase_missing_db (url_parse_protocol : value -> completion value)
    (config : value) :
  nullish (own_prop config "db") ->
  getDatabase url_parse_protocol config = Throw TypeError.
Proof. apply getDatabase_nullish. Qed.

Lemma getDatabase_missing_db_witness :
  nullish (own_prop (VObj ∅) "db") /\
  getDatabase node_url_protocol (VObj ∅) = Throw TypeError.
Proof.
  assert (nullish (own_prop (VObj ∅) "db")) as H by (left; reflexivity).
  split; [exact H|]. exact (getDatabase_missing_db node_url_protocol _ H).
Defined.

(** X6. The two forms of a descriptor agree: a URI given as a string and
    the same (non-empty) URI given as the [url] of an object resolve alike,
    whatever else the object and the configurations hold. *)
Theorem getDatabase_forms_agree (url_parse_protocol : value -> completion value)
    (config_s config_o : value) (fields : gmap string value) (uri : string) :
  uri <> "" ->
  own_prop config_s "db" = VStr uri ->
  own_prop config_o "db" = VObj fields ->
  fields !! "url" = Some (VStr uri) ->
  getDatabase url_parse_protocol config_s
  = getDatabase url_parse_protocol config_o.
Proof.
  intros Hne Hs Ho Hu. apply String.eqb_neq in Hne.
  rewrite (getDatabase_asks _ config_s _ Hs) by (intros [?|?]; discriminate).
  rewrite (getDatabase_asks _ config_o _ Ho) by (intros [?|?]; discriminate).
  cbn. rewrite Hu. cbn. unfold js_or. cbn. rewrite Hne. reflexivity.
Qed.

Lemma getDatabase_forms_agree_witness :
  getDatabase node_url_protocol
    (VObj (<["db" := VStr "postgres://127.0.0.1:5432/"]> ∅))
  = getDatabase node_url_protocol
      (VObj (<["db" := VObj postgres_object]> ∅)).
Proof.
  apply (getDatabase_forms_agree node_url_protocol _ _ postgres_object
           "postgres://127.0.0.1:5432/"); [discriminate|reflexivity..].
Defined.

(** X7. An object descriptor whose [url] is missing or falsy is itself
    handed to the parser, and what the parser throws at it is what the
    resolver throws (Node's parser: a [TypeError]). *)
Theorem getDatabase_object_without_url
    (url_parse_protocol : value -> completion value)
    (config : value) (fields : gmap string value) (e : exn) :
  own_prop config "db" = VObj fields ->
  truthy (own_prop (VObj fields) "url") = false ->
  url_parse_protocol (VObj fields) = Throw e ->
  getDatabase url_parse_protocol config = Throw e.
Proof.
  intros Hdb Hu He.
  rewrite (getDatabase_asks _ config _ Hdb) by (intros [?|?]; discriminate).
  unfold js_or. by rewrite Hu, He.
Qed.

Lemma getDatabase_object_without_url_witness :
  getDatabase node_url_protocol (VObj (<["db" := VObj nameless_object]> ∅))
  = Throw TypeError.
Proof.
  apply (getDatabase_object_without_url node_url_protocol _ nameless_object);
    reflexivity.
Defined.

(** X8. A parser that throws at the URI of a descriptor makes the resolver
    throw the same exception; the resolver catches nothing. *)
Theorem getDatabase_parser_throws
    (url_parse_protocol : value -> completion value)
    (config db : value) (uri : string) (e : exn) :
  own_prop config "db" = db ->
  descriptor_uri db uri ->
  url_parse_protocol (VStr uri) = Throw e ->
  getDatabase url_parse_protocol config = Throw e.
Proof.
  intros Hdb Hd He. destruct (descriptor_is_value _ _ Hd) as [Hu Hn].
  rewrite (getDatabase_asks _ config _ Hdb) by (intros [?|?]; congruence).
  destruct Hd as [u|fields u Hf Hne].
  - unfold js_or. cbn. by rewrite He.
  - apply String.eqb_neq in Hne. cbn. rewrite Hf. cbn. unfold js_or. cbn.
    rewrite Hne. cbn. by rewrite He.
Qed.

Lemma getDatabase_parser_throws_witness :
  getDatabase (fun _ => Throw (Raised (VStr "bad address")))
    (VObj (<["db" := VStr "http://[::1"]> ∅))
  = Throw (Raised (VStr "bad address")).
Proof.
  apply (getDatabase_parser_throws _ _ (VStr "http://[::1") "http://[::1");
    [reflexivity|constructor|reflexivity].
Defined.

(** ** qr *)

Lemma percent_escape_safe c :
  forallb uri_safe (list_ascii_of_string (percent_escape c)) = true.
Proof. destruct c as [[] [] [] [] [] [] [] []]; reflexivity. Qed.

Lemma uri_unreserved_safe c : uri_unreserved c = true -> uri_safe c = true.
Proof. unfold uri_safe. by intros ->. Qed.

(** Nothing but unreserved characters and [%] comes out of the escape. *)
Lemma encodeURIComponent_safe s :
  forallb uri_safe (list_ascii_of_string (encodeURIComponent s)) = true.
Proof.
  induction s as [|c s IH]; [reflexivity|].
  cbn [encodeURIComponent]. rewrite OtpEngineFacts.list_ascii_app, forallb_app, IH.
  rewrite andb_true_r. destruct (uri_unreserved c) eqn:Hc.
  - cbn. by rewrite (uri_unreserved_safe _ Hc).
  - apply percent_escape_safe.
Qed.

(** Unreserved text goes through the escape unchanged. *)
Lemma encodeURIComponent_unreserved s :
  unreserved s = true -> encodeURIComponent s = s.
Proof.
  unfold unreserved. induction s as [|c s IH]; [reflexivity|]. cbn.
  intros [Hc Hs]%andb_prop. rewrite Hc, (IH Hs). reflexivity.
Qed.

Lemma length_append (a b : string) :
  String.length (a +:+ b) = (String.length a + String.length b)%nat.
Proof.
  induction a as [|c a IH]; [reflexivity|].
  change (String c a +:+ b) with (String c (a +:+ b)). cbn. by rewrite IH.
Qed.

(** The escape makes a text no shorter and at most three times as long. *)
Lemma encodeURIComponent_length s :
  (String.length s <= String.length (encodeURIComponent s)
   <= 3 * String.length s)%nat.
Proof.
  induction s as [|c s IH]; [cbn; lia|].
  cbn [encodeURIComponent String.length]. rewrite length_append.
  destruct (uri_unreserved c); cbn; lia.
Qed.

Section QrMore.

Variable base32_encode : value -> completion string.

(** [qr] on anything that has properties: the key goes to the encoder, the
    rest is text. *)
Lemma qr_on_value config :
  ~ nullish config ->
  qr base32_encode config
  = (encoded ← base32_encode (own_prop config "key");
     Normal (qr_api +:+ encodeURIComponent
       (provisioning_uri (qr_issuer config)
          (to_string (own_prop config "email")) encoded))).
Proof.
  intros Hn. unfold qr.
  rewrite !get_prop_own by (intros ->; apply Hn; by (left + right)).
  reflexivity.
Qed.

Lemma qr_on_nullish config :
  nullish config -> qr base32_encode config = Throw TypeError.
Proof. by intros [-> | ->]. Qed.

End QrMore.

(** X9. An issuer that is missing or falsy (the empty string, [null]) is
    replaced by ['Lockit'], in the label and in the [issuer] parameter
    alike. *)
Theorem qr_issuer_default (base32_encode : value -> completion string)
    (config : value) (encoded : string) :
  ~ nullish config ->
  truthy (own_prop config "issuer") = false ->
  base32_encode (own_prop config "key") = Normal encoded ->
  qr base32_encode config
  = Normal (qr_api +:+ encodeURIComponent
      ("otpauth://totp/" +:+ ("Lockit" +:+ ":"
         +:+ to_string (own_prop config "email"))
       +:+ "?secret=" +:+ encoded +:+ "&issuer=" +:+ "Lockit")).
Proof.
  intros Hn Hi He. rewrite (qr_on_value _ _ Hn), He.
  unfold qr_issuer, js_or. rewrite Hi. reflexivity.
Qed.

Lemma qr_issuer_default_witness :
  qr thirty_two_encode (provisioning_config (VStr "abcd1234") "a@b.c" "")
  = Normal (qr_api +:+ encodeURIComponent
      ("otpauth://totp/" +:+ ("Lockit" +:+ ":" +:+ "a@b.c")
       +:+ "?secret=" +:+ "MFRGGZBRGIZTI===" +:+ "&issuer=" +:+ "Lockit")).
Proof.
  apply (qr_issuer_default thirty_two_encode
           (provisioning_config (VStr "abcd1234") "a@b.c" ""));
    [intros [?|?]; discriminate|reflexivity|reflexivity].
Defined.

(** X10. Every link [qr] returns is the address of the chart service
    followed by characters that are unreserved or [%] only: whatever the
    key, the e-mail and the issuer hold, no [&], [=], [?] or [#] of theirs
    reaches the query string. *)
Theorem qr_link_safe (base32_encode : value -> completion string)
    (config : value) (link : string) :
  qr base32_encode config = Normal link ->
  exists payload,
    link = qr_api +:+ payload /\
    forallb uri_safe (list_ascii_of_string payload) = true.
Proof.
  intros H. destruct (classic_nullish config) as [Hn|Hn].
  - by rewrite qr_on_nullish in H.
  - rewrite (qr_on_value _ _ Hn) in H.
    destruct (base32_encode _) as [encoded|e]; [|discriminate].
    injection H as <-. eexists. split; [reflexivity|].
    apply encodeURIComponent_safe.
Qed.

Lemma qr_link_safe_witness :
  exists payload,
    "https://chart.googleapis.com/chart?chs=200x200&cht=qr&chl=otpauth%3A%2F%2Ftotp%2FA%26B%3Ax%3D1%3Fsecret%3DMFRGGZBRGIZTI%3D%3D%3D%26issuer%3DA%26B"
    = qr_api +:+ payload /\
    forallb uri_safe (list_ascii_of_string payload) = true.
Proof.
  apply (qr_link_safe thirty_two_encode
           (provisioning_config (VStr "abcd1234") "x=1" "A&B")).
  reflexivity.
Defined.



(** X12. A configuration without an e-mail still gets its link: the label
    is the issuer followed by [:undefined]. *)
Theorem qr_missing_email (base32_encode : value -> completion string)
    (config : value) (encoded : string) :
  ~ nullish config ->
  own_prop config "email" = VUndefined ->
  base32_encode (own_prop config "key") = Normal encoded ->
  qr base32_encode config
  = Normal (qr_api +:+ "otpauth%3A%2F%2Ftotp%2F"
      +:+ encodeURIComponent (qr_issuer config)
      +:+ "%3Aundefined%3Fsecret%3D" +:+ encodeURIComponent encoded
      +:+ "%26issuer%3D" +:+ encodeURIComponent (qr_issuer config)).
Proof.
  intros Hn Hm He. rewrite (qr_on_value _ _ Hn), He, Hm.
  unfold provisioning_uri. cbn [mbind completion_bind to_string].
  rewrite provisioning_uri_escaped. reflexivity.
Qed.

Lemma qr_missing_email_witness :
  qr thirty_two_encode (VObj (<["key" := VStr "abcd1234"]> ∅))
  = Normal (qr_api +:+ "otpauth%3A%2F%2Ftotp%2F"
      +:+ encodeURIComponent "Lockit"
      +:+ "%3Aundefined%3Fsecret%3D" +:+ encodeURIComponent "MFRGGZBRGIZTI==="
      +:+ "%26issuer%3D" +:+ encodeURIComponent "Lockit").
Proof.
  assert (~ nullish (VObj (<["key" := VStr "abcd1234"]> ∅))) as Hn
    by (intros [?|?]; discriminate).
  exact (qr_missing_email thirty_two_encode
           (VObj (<["key" := VStr "abcd1234"]> ∅)) "MFRGGZBRGIZTI==="
           Hn eq_refl eq_refl).
Defined.

(** X13. An issuer and an e-mail made of unreserved characters only
    (letters, digits, [- _ . ! ~ * ' ( )]) stand in the link as they are;
    only the separators around them are escaped. *)
Theorem qr_unreserved_verbatim (base32_encode : value -> completion string)
    (key : value) (email issuer encoded : string) :
  issuer <> "" ->
  unreserved issuer = true ->
  unreserved email = true ->
  base32_encode key = Normal encoded ->
  qr base32_encode (provisioning_config key email issuer)
  = Normal (qr_api +:+ "otpauth%3A%2F%2Ftotp%2F" +:+ issuer +:+ "%3A"
      +:+ email +:+ "%3Fsecret%3D" +:+ encodeURIComponent encoded
      +:+ "%26issuer%3D" +:+ issuer).
Proof.
  intros Hi Hui Hue He. rewrite (qr_unfold _ _ _ _ _ Hi He).
  rewrite provisioning_uri_escaped.
  by rewrite (encodeURIComponent_unreserved _ Hui),
             (encodeURIComponent_unreserved _ Hue).
Qed.

Lemma qr_unreserved_verbatim_witness :
  qr thirty_two_encode (provisioning_config (VStr "abcd1234") "alice" "Acme")
  = Normal (qr_api +:+ "otpauth%3A%2F%2Ftotp%2F" +:+ "Acme" +:+ "%3A"
      +:+ "alice" +:+ "%3Fsecret%3D" +:+ encodeURIComponent "MFRGGZBRGIZTI==="
      +:+ "%26issuer%3D" +:+ "Acme").
Proof.
  apply (qr_unreserved_verbatim thirty_two_encode (VStr "abcd1234")
           "alice" "Acme" "MFRGGZBRGIZTI===");
    [discriminate|reflexivity..].
Defined.

(** X14. The length of a returned link is bounded by the lengths of its
    parts. Let [n] be the number of UTF-8 bytes of the URI before the
    escape: 32 for the scheme and the separators, the issuer twice, the
    e-mail and the encoded key. A link that [qr] returns has between
    [58 + n] and [58 + 3 n] characters. *)
Theorem qr_link_length (base32_encode : value -> completion string)
    (config : value) (encoded link : string) :
  ~ nullish config ->
  base32_encode (own_prop config "key") = Normal encoded ->
  qr base32_encode config = Normal link ->
  let n := (32 + 2 * String.length (qr_issuer config)
            + String.length (to_string (own_prop config "email"))
            + String.length encoded)%nat in
  (58 + n <= String.length link <= 58 + 3 * n)%nat.
Proof.
  intros Hn He Hq n. rewrite (qr_on_value _ _ Hn), He in Hq.
  cbn [mbind completion_bind] in Hq.
  assert (link = qr_api +:+ encodeURIComponent
            (provisioning_uri (qr_issuer config)
               (to_string (own_prop config "email")) encoded)) as ->
    by congruence.
  rewrite length_append.
  change (String.length qr_api) with 58%nat.
  pose proof (encodeURIComponent_length
    (provisioning_uri (qr_issuer config)
       (to_string (own_prop config "email")) encoded)) as Hl.
  assert (String.length (provisioning_uri (qr_issuer config)
            (to_string (own_prop config "email")) encoded) = n) as Hu.
  { unfold provisioning_uri. rewrite !length_append. cbn. lia. }
  rewrite Hu in Hl. lia.
Qed.

Lemma qr_link_length_witness :
  (58 + 73
   <= String.length
        ("https://chart.googleapis.com/chart?chs=200x200&cht=qr&chl="
         +:+ "otpauth%3A%2F%2Ftotp%2FAcme%3Aalice%40example.com"
         +:+ "%3Fsecret%3DMFRGGZBRGIZTI%3D%3D%3D%26issuer%3DAcme")
   <= 58 + 3 * 73)%nat.
Proof.
  assert (~ nullish (provisioning_config (VStr "abcd1234")
                       "alice@example.com" "Acme")) as Hn
    by (intros [?|?]; discriminate).
  exact (qr_link_length thirty_two_encode
           (provisioning_config (VStr "abcd1234") "alice@example.com" "Acme")
           "MFRGGZBRGIZTI===" _ Hn eq_refl eq_refl).
Defined.

(** ** verify *)

Lemma options_defaulted options : truthy (js_or options (VObj ∅)) = true.
Proof. unfold js_or. by destruct (truthy options) eqn:H. Qed.

(** X15. Options that are falsy ([undefined], [null], [0], the empty
    string, [false]) are the same as an empty options object, and the
    window search is never handed anything falsy: an engine that refused
    falsy options would never notice. *)
Theorem verify_options_default {Token Key : Type}
    (totp_verify : Token -> Key -> value -> completion value)
    (token : Token) (key : Key) (options : value) :
  (truthy options = false ->
   verify totp_verify token key options
   = verify totp_verify token key (VObj ∅)) /\
  verify totp_verify token key options
  = verify (needing_options totp_verify) token key options.
Proof.
  split.
  - intros H. unfold verify, js_or. by rewrite H.
  - unfold verify, needing_options. by rewrite options_defaulted.
Qed.

(** X16. The wrapper adds no failure of its own and hides none: it throws
    exactly when the window search throws, and throws the same thing. *)
Theorem verify_throws_iff {Token Key : Type}
    (totp_verify : Token -> Key -> value -> completion value)
    (token : Token) (key : Key) (options : value) (e : exn) :
  verify totp_verify token key options = Throw e
  <-> totp_verify token key (js_or options (VObj ∅)) = Throw e.
Proof.
  destruct (totp_verify token key (js_or options (VObj ∅))) as [v|e'] eqn:H.
  - rewrite (verify_normal _ _ _ _ _ H). split; discriminate.
  - by rewrite (verify_throw _ _ _ _ _ H).
Qed.

(** ** destroy *)

(** X17. On a request with a session store, [destroy] throws in two cases
    only: a [TypeError] when the session object is not there, and otherwise
    whatever the session's own [destroy] throws. *)
Theorem destroy_store_throws_iff {Callback : Type}
    (session_destroy : request -> Callback -> completion (outcome Callback))
    (req : request) (done : Callback) (e : exn) :
  truthy (sessionStore req) = true ->
  (destroy session_destroy req done = Throw e
   <-> (nullish (session req) /\ e = TypeError)
       \/ (has_session req /\ session_destroy req done = Throw e)).
Proof.
  intros Hst. unfold destroy. rewrite Hst.
  destruct (classic_nullish (session req)) as [Hn|Hn].
  - assert (get_prop (session req) "destroy" = Throw TypeError) as ->
      by (by destruct Hn as [-> | ->]).
    cbn. split.
    + intros [= <-]. by left.
    + intros [[_ ->]|[Hs _]]; [done|].
      by apply nullish_no_session in Hn.
  - assert (has_session req) as Hs.
    { split; intros Heq; apply Hn; [by left|by right]. }
    rewrite (get_prop_own _ _ (proj1 Hs) (proj2 Hs)). cbn. split.
    + intros H. by right.
    + intros [[Hnull _]|[_ H]]; [contradiction|exact H].
Qed.

Lemma destroy_store_throws_iff_witness :
  truthy (sessionStore gone_request) = true /\
  (destroy express_session_destroy gone_request "done" = Throw TypeError
   <-> (nullish (session gone_request) /\ TypeError = TypeError)
       \/ (has_session gone_request /\
           express_session_destroy gone_request "done" = Throw TypeError)).
Proof.
  split; [reflexivity|].
  exact (destroy_store_throws_iff express_session_destroy gone_request
           "done" TypeError eq_refl).
Defined.

(** X18. Destroying twice without a store does no harm: the second run
    finds the session already [null], leaves the request as the first run
    left it, and calls its own callback. *)
Theorem destroy_twice {Callback : Type}
    (session_destroy : request -> Callback -> completion (outcome Callback))
    (req : request) (done1 done2 : Callback) :
  truthy (sessionStore req) = false ->
  exists first second,
    destroy session_destroy req done1 = Normal first /\
    destroy session_destroy (req_after first) done2 = Normal second /\
    req_after second = req_after first /\
    invoked second = [done2] /\
    returned second = VUndefined.
Proof.
  intros Hst. rewrite (destroy_without_store _ _ _ Hst).
  eexists. eexists. split; [reflexivity|]. cbn [req_after].
  rewrite destroy_without_store by exact Hst.
  split; [reflexivity|]. by repeat split.
Qed.

Lemma destroy_twice_witness :
  exists first second,
    destroy express_session_destroy visitor_request "first" = Normal first /\
    destroy express_session_destroy (req_after first) "second"
    = Normal second /\
    req_after second = req_after first /\
    invoked second = ["second"] /\
    returned second = VUndefined.
Proof.
  exact (destroy_twice express_session_destroy visitor_request
           "first" "second" eq_refl).
Defined.

(** X19. After [destroy] has cleared a session that has no store, the
    guard of [restrict] cannot serve the same request: it finds the session
    [null] and throws a [TypeError] instead of redirecting. *)
Theorem destroy_then_restrict {Callback : Type}
    (session_destroy : request -> Callback -> completion (outcome Callback))
    (config : value) (req : request) (done : Callback) :
  truthy (sessionStore req) = false ->
  exists res g,
    destroy session_destroy req done = Normal res /\
    restrict config = Normal g /\
    g (req_after res) = Throw TypeError.
Proof.
  intros Hst. rewrite (destroy_without_store _ _ _ Hst).
  destruct (guard_cases config) as (g & Hg & Hc).
  eexists. exists g. split; [reflexivity|]. split; [exact Hg|].
  cbn [req_after].
  destruct (Hc {| session := VNull; sessionStore := sessionStore req;
                  url := url req |}) as [[[_ Hs] _]|[_ H]]; [|exact H].
  by contradiction Hs.
Qed.

Lemma destroy_then_restrict_witness :
  exists res g,
    destroy express_session_destroy visitor_request "done" = Normal res /\
    restrict signin_config = Normal g /\
    g (req_after res) = Throw TypeError.
Proof.
  exact (destroy_then_restrict express_session_destroy signin_config
           visitor_request "done" eq_refl).
Defined.
